(** * StaticWaves music subsystem: adaptive-context controller

    A shallow embedding of [StaticWavesMusicSubsystem.h] and
    [StaticWavesMusicSubsystem.cpp].  The subsystem object becomes a record,
    every member function a function from states to states, and the
    transport (socket creation, connect, close, send) and the log become
    an event trace carried by the state.  The C++ [float] is IEEE-754
    binary32 with round-to-nearest-even, taken from the Standard Library's
    executable specification of floating-point arithmetic. *)

From Stdlib Require Import ZArith List String Ascii Bool Lia.
From Stdlib Require Import DecimalString.
From Stdlib Require Import Floats.SpecFloat.
Import ListNotations.

Local Open Scope Z_scope.

(** ** Single-precision numbers *)

Module F32.

Definition prec : Z := 24.
Definition emax : Z := 128.

Definition float : Type := spec_float.

Definition add : float -> float -> float := SFadd prec emax.
Definition sub : float -> float -> float := SFsub prec emax.
Definition mul : float -> float -> float := SFmul prec emax.
Definition div : float -> float -> float := SFdiv prec emax.
Definition ltb : float -> float -> bool := SFltb.
Definition leb : float -> float -> bool := SFleb.
Definition eqb : float -> float -> bool := SFeqb.

(** The value of an integer, rounded to single precision. *)
Definition of_Z (n : Z) : float := binary_normalize prec emax n 0 false.

(** A decimal literal [n/d] written with an [f] suffix: the
    single-precision number nearest to the quotient. *)
Definition lit (n d : Z) : float := div (of_Z n) (of_Z d).

Definition zero : float := S754_zero false.
Definition one : float := S754_finite false 8388608 (-23).

(** Numbers a well-formed [float] can hold: canonical mantissa and
    exponent in range. *)
Definition valid (x : float) : bool := valid_binary prec emax x.

Definition is_nan (x : float) : bool :=
  match x with S754_nan => true | _ => false end.

Definition is_finite (x : float) : bool :=
  match x with S754_zero _ | S754_finite _ _ _ => true | _ => false end.

(** [x] lies in the closed unit interval (false on NaN). *)
Definition in_unit (x : float) : bool := leb zero x && leb x one.

End F32.

Abbreviation float := F32.float.

(** ** Engine math *)

Module FMath.

(** Modelled from the spec: [FMath::Max] is engine code outside the
    repository; the spec writes [max(durationSeconds, 0.1)].  The engine
    template is [(A >= B) ? A : B]. *)
Definition Max (A B : float) : float := if F32.leb B A then A else B.

(** Modelled from the spec: [FMath::Clamp] is engine code outside the
    repository; the spec's "clamps to [0,1]".  The engine template is
    [X < Min ? Min : X < Max ? X : Max]. *)
Definition Clamp (X Min Max : float) : float :=
  if F32.ltb X Min then Min else if F32.ltb X Max then X else Max.

(** Modelled from the spec: [FMath::Lerp] is engine code outside the
    repository; the spec's linear interpolation [lerp(a, b, t)].  The
    engine template is [A + Alpha * (B - A)]. *)
Definition Lerp (A B Alpha : float) : float :=
  F32.add A (F32.mul Alpha (F32.sub B A)).

End FMath.

(** ** The music context *)

Record FMusicContext : Type := mkContext {
  Energy : float;
  Tension : float;
  Darkness : float;
  Complexity : float
}.

(** The constructor [FMusicContext()]: every field at [0.5f]. *)
Definition FMusicContext_default : FMusicContext :=
  mkContext (F32.lit 5 10) (F32.lit 5 10) (F32.lit 5 10) (F32.lit 5 10).

Module Printf.

(** Modelled from the spec: the [%.2f] conversion of [FString::Printf] is
    engine code outside the repository; "exactly two decimal digits of
    precision per field".  The exact value is rounded to the nearest
    hundredth, ties to even. *)
Definition hundredths (m : positive) (e : Z) : Z :=
  match e with
  | Zneg p =>
      let d := Z.pow 2 (Zpos p) in
      let q := Z.div (Zpos m * 100) d in
      let r := Z.modulo (Zpos m * 100) d in
      match Z.compare (2 * r) d with
      | Lt => q
      | Gt => q + 1
      | Eq => if Z.even q then q else q + 1
      end
  | _ => Zpos m * 100 * Z.pow 2 e
  end.

Definition digits (n : Z) : string :=
  NilZero.string_of_uint (N.to_uint (Z.to_N n)).

(** Modelled from the spec: the [%d] conversion is engine code outside
    the repository; it prints a 32-bit signed integer, so of a wider
    argument the low 32 bits. *)
Definition int32 (n : Z) : Z :=
  let w := Z.modulo n (Z.pow 2 32) in
  if Z.ltb w (Z.pow 2 31) then w else w - Z.pow 2 32.

(** [%d]: the decimal text of those 32 bits. *)
Definition d (n : Z) : string :=
  let i := int32 n in
  if Z.ltb i 0 then String "-" (digits (Z.opp i)) else digits i.

Definition two_digits (n : Z) : string :=
  if Z.ltb n 10 then String "0" (digits n) else digits n.

Definition fixed2 (h : Z) : string :=
  (digits (Z.div h 100) ++ "." ++ two_digits (Z.modulo h 100))%string.

Definition sign (s : bool) : string := if s then "-"%string else EmptyString.

Definition f2 (x : float) : string :=
  match x with
  | S754_zero s => (sign s ++ "0.00")%string
  | S754_infinity s => (sign s ++ "inf")%string
  | S754_nan => "nan"%string
  | S754_finite s m e => (sign s ++ fixed2 (hundredths m e))%string
  end.

End Printf.

Definition dquote : string := String (ascii_of_nat 34) EmptyString.

(** The format string of [ToJson] with its four conversions filled in. *)
Definition JsonFormat (e t d c : string) : string :=
  ("{" ++ dquote ++ "energy" ++ dquote ++ ":" ++ e
   ++ "," ++ dquote ++ "tension" ++ dquote ++ ":" ++ t
   ++ "," ++ dquote ++ "darkness" ++ dquote ++ ":" ++ d
   ++ "," ++ dquote ++ "complexity" ++ dquote ++ ":" ++ c ++ "}")%string.

(** [FMusicContext::ToJson]. *)
Definition ToJson (c : FMusicContext) : string :=
  JsonFormat (Printf.f2 (Energy c)) (Printf.f2 (Tension c))
    (Printf.f2 (Darkness c)) (Printf.f2 (Complexity c)).

(** ** The subsystem and its surroundings *)

(** Modelled from the spec: [FName] is engine code outside the
    repository; the spec's event "name".  A name is kept by its text. *)
Definition FName : Type := string.

(** Modelled from the spec: the folding of a letter that the engine's
    comparison of names applies, [A]..[Z] to [a]..[z]. *)
Definition ToLower (c : ascii) : ascii :=
  let n := nat_of_ascii c in
  if (Nat.leb 65 n && Nat.leb n 90)%bool then ascii_of_nat (n + 32) else c.

Fixpoint Lowered (s : string) : string :=
  match s with
  | EmptyString => EmptyString
  | String c s => String (ToLower c) (Lowered s)
  end.

(** Modelled from the spec: [Name == Other], the [operator==] of [FName]
    against a literal, is engine code outside the repository; the spec's
    "name match".  The engine compares whole names and ignores the case
    of their letters. *)
Definition FName_eq (Name : FName) (Other : string) : bool :=
  String.eqb (Lowered Name) (Lowered Other).

Inductive LogVerbosity : Type := Log | Warning | Error | Verbose | VeryVerbose.

(** What the subsystem does to the outside: the sockets it asks the
    WebSockets module for, the calls it makes on them, and its log lines.
    A socket is named by the order of its creation. *)
Inductive Event : Type :=
| CreateWebSocket (id : nat) (url : string)
| SocketConnect (id : nat)
| SocketClose (id : nat)
| SocketSend (id : nat) (frame : string)
| UE_LOG (v : LogVerbosity) (msg : string).

(** The members of [UStaticWavesMusicSubsystem], followed by the two
    pieces of the surroundings the member functions act on: the number of
    sockets created so far and the trace of events, oldest first.
    [WebSocket] is the shared pointer: [None] is the null pointer. *)
Record State : Type := mkState {
  WebSocket : option nat;
  CurrentContext : FMusicContext;
  TargetContext : FMusicContext;
  TransitionAlpha : float;
  TransitionDuration : float;
  bIsConnected : bool;
  ServerURL : string;
  Sockets : nat;
  Trace : list Event
}.

Definition emit (e : Event) (s : State) : State :=
  mkState (WebSocket s) (CurrentContext s) (TargetContext s)
    (TransitionAlpha s) (TransitionDuration s) (bIsConnected s)
    (ServerURL s) (Sockets s) (Trace s ++ [e]).

Definition set_WebSocket (w : option nat) (s : State) : State :=
  mkState w (CurrentContext s) (TargetContext s)
    (TransitionAlpha s) (TransitionDuration s) (bIsConnected s)
    (ServerURL s) (Sockets s) (Trace s).

Definition set_CurrentContext (c : FMusicContext) (s : State) : State :=
  mkState (WebSocket s) c (TargetContext s)
    (TransitionAlpha s) (TransitionDuration s) (bIsConnected s)
    (ServerURL s) (Sockets s) (Trace s).

Definition set_TargetContext (c : FMusicContext) (s : State) : State :=
  mkState (WebSocket s) (CurrentContext s) c
    (TransitionAlpha s) (TransitionDuration s) (bIsConnected s)
    (ServerURL s) (Sockets s) (Trace s).

Definition set_TransitionAlpha (a : float) (s : State) : State :=
  mkState (WebSocket s) (CurrentContext s) (TargetContext s)
    a (TransitionDuration s) (bIsConnected s)
    (ServerURL s) (Sockets s) (Trace s).

Definition set_TransitionDuration (d : float) (s : State) : State :=
  mkState (WebSocket s) (CurrentContext s) (TargetContext s)
    (TransitionAlpha s) d (bIsConnected s)
    (ServerURL s) (Sockets s) (Trace s).

Definition set_bIsConnected (b : bool) (s : State) : State :=
  mkState (WebSocket s) (CurrentContext s) (TargetContext s)
    (TransitionAlpha s) (TransitionDuration s) b
    (ServerURL s) (Sockets s) (Trace s).

Definition set_ServerURL (u : string) (s : State) : State :=
  mkState (WebSocket s) (CurrentContext s) (TargetContext s)
    (TransitionAlpha s) (TransitionDuration s) (bIsConnected s)
    u (Sockets s) (Trace s).

Definition set_Sockets (n : nat) (s : State) : State :=
  mkState (WebSocket s) (CurrentContext s) (TargetContext s)
    (TransitionAlpha s) (TransitionDuration s) (bIsConnected s)
    (ServerURL s) n (Trace s).

(** [TSharedPtr::IsValid]. *)
Definition IsValid (w : option nat) : bool :=
  match w with Some _ => true | None => false end.

(** The constructor together with the member initialisers of the header:
    both contexts at the default, [TransitionAlpha = 1.0f],
    [TransitionDuration = 1.0f], [bIsConnected = false]. *)
Definition UStaticWavesMusicSubsystem : State :=
  mkState None FMusicContext_default FMusicContext_default
    (F32.lit 1 1) (F32.lit 1 1) false EmptyString 0%nat [].

(** [SendControlUpdate]. *)
Definition SendControlUpdate (s : State) : State :=
  if negb (bIsConnected s) || negb (IsValid (WebSocket s)) then s
  else
    match WebSocket s with
    | None => s
    | Some w =>
        let JsonString := ToJson (CurrentContext s) in
        emit (UE_LOG Verbose ("[StaticWaves] Sent: " ++ JsonString))
          (emit (SocketSend w JsonString) s)
    end.

(** [Connect].  Loading the WebSockets module and binding the five
    callbacks leave no mark on the state; the callbacks are the functions
    [OnConnected], [OnConnectionError], [OnClosed], [OnMessage] and
    [OnRawMessage] below, run by the surroundings. *)
Definition Connect (InServerURL : string) (s : State) : State :=
  if bIsConnected s then
    emit (UE_LOG Warning "[StaticWaves] Already connected") s
  else
    let s := set_ServerURL InServerURL s in
    let w := Sockets s in
    let s := emit (CreateWebSocket w (ServerURL s)) s in
    let s := set_Sockets (S w) s in
    let s := set_WebSocket (Some w) s in
    let s := emit (SocketConnect w) s in
    emit (UE_LOG Log ("[StaticWaves] Connecting to " ++ ServerURL s ++ "...")) s.

(** [Disconnect]. *)
Definition Disconnect (s : State) : State :=
  if negb (bIsConnected s) then s
  else
    let s :=
      match WebSocket s with
      | Some w => set_WebSocket None (emit (SocketClose w) s)
      | None => s
      end in
    let s := set_bIsConnected false s in
    emit (UE_LOG Log "[StaticWaves] Disconnected") s.

(** [SetMusicContext]. *)
Definition SetMusicContext (Context : FMusicContext) (s : State) : State :=
  let s := set_CurrentContext Context s in
  let s := set_TargetContext Context s in
  let s := set_TransitionAlpha (F32.lit 1 1) s in
  SendControlUpdate s.

(** [TransitionToContext]; the header gives [TransitionTime] the default
    [1.0f]. *)
Definition TransitionToContext (Context : FMusicContext)
    (TransitionTime : float) (s : State) : State :=
  let s := set_TargetContext Context s in
  let s := set_TransitionDuration (FMath.Max (F32.lit 1 10) TransitionTime) s in
  set_TransitionAlpha (F32.lit 0 1) s.

Definition DefaultTransitionTime : float := F32.lit 1 1.

(** The presets. *)
Definition ExplorationContext : FMusicContext :=
  mkContext (F32.lit 3 10) (F32.lit 1 10) (F32.lit 2 10) (F32.lit 4 10).
Definition CombatContext : FMusicContext :=
  mkContext (F32.lit 9 10) (F32.lit 8 10) (F32.lit 6 10) (F32.lit 7 10).
Definition BossContext : FMusicContext :=
  mkContext (F32.lit 1 1) (F32.lit 95 100) (F32.lit 8 10) (F32.lit 9 10).
Definition PuzzleContext : FMusicContext :=
  mkContext (F32.lit 4 10) (F32.lit 5 10) (F32.lit 3 10) (F32.lit 6 10).
Definition VictoryContext : FMusicContext :=
  mkContext (F32.lit 7 10) (F32.lit 2 10) (F32.lit 1 10) (F32.lit 5 10).

Definition SetExploration : State -> State :=
  TransitionToContext ExplorationContext DefaultTransitionTime.
Definition SetCombat : State -> State :=
  TransitionToContext CombatContext DefaultTransitionTime.
Definition SetBoss : State -> State :=
  TransitionToContext BossContext DefaultTransitionTime.
Definition SetPuzzle : State -> State :=
  TransitionToContext PuzzleContext DefaultTransitionTime.
Definition SetVictory : State -> State :=
  TransitionToContext VictoryContext DefaultTransitionTime.

(** [PushMusicEvent]; the header gives [Intensity] the default [1.0f].
    The four tests are [FName] comparisons, [FName_eq]. *)
Definition PushMusicEvent (EventName : FName) (Intensity : float)
    (s : State) : State :=
  if FName_eq EventName "combat_start" then SetCombat s
  else if FName_eq EventName "boss_enter" then SetBoss s
  else if FName_eq EventName "puzzle_start" then SetPuzzle s
  else if FName_eq EventName "victory" then SetVictory s
  else
    let Context := CurrentContext s in
    let Context :=
      mkContext (Energy Context)
        (FMath.Clamp Intensity (F32.lit 0 1) (F32.lit 1 1))
        (Darkness Context) (Complexity Context) in
    TransitionToContext Context (F32.lit 5 10) s.

(** [OnConnected]. *)
Definition OnConnected (s : State) : State :=
  let s := set_bIsConnected true s in
  let s := emit (UE_LOG Log "[StaticWaves] Connected successfully") s in
  SendControlUpdate s.

(** [OnConnectionError]. *)
Definition OnConnectionError (Err : string) (s : State) : State :=
  let s := set_bIsConnected false s in
  emit (UE_LOG Error ("[StaticWaves] Connection error: " ++ Err)) s.

(** [OnClosed]. *)
Definition OnClosed (StatusCode : Z) (Reason : string) (bWasClean : bool)
    (s : State) : State :=
  let s := set_bIsConnected false s in
  emit (UE_LOG Log ("[StaticWaves] Connection closed: " ++ Reason
                    ++ " (Code: " ++ Printf.d StatusCode ++ ")")) s.

(** [OnMessage]. *)
Definition OnMessage (Message : string) (s : State) : State :=
  emit (UE_LOG Verbose ("[StaticWaves] Received message: " ++ Message)) s.

(** [OnRawMessage]: the bytes are counted in the log, through [%d], and
    dropped. *)
Definition OnRawMessage (Size BytesRemaining : N) (s : State) : State :=
  emit (UE_LOG VeryVerbose
          ("[StaticWaves] Received " ++ Printf.d (Z.of_N Size)
           ++ " bytes of audio")) s.

(** The four fields, each moved by [FMath::Lerp]. *)
Definition LerpContext (c t : FMusicContext) (Alpha : float) : FMusicContext :=
  mkContext (FMath.Lerp (Energy c) (Energy t) Alpha)
    (FMath.Lerp (Tension c) (Tension t) Alpha)
    (FMath.Lerp (Darkness c) (Darkness t) Alpha)
    (FMath.Lerp (Complexity c) (Complexity t) Alpha).

(** [Tick].  Its result, always [true] (keep ticking), is left out. *)
Definition Tick (DeltaTime : float) (s : State) : State :=
  if F32.ltb (TransitionAlpha s) (F32.lit 1 1) then
    let s :=
      set_TransitionAlpha
        (F32.add (TransitionAlpha s) (F32.div DeltaTime (TransitionDuration s)))
        s in
    let s :=
      set_TransitionAlpha
        (FMath.Clamp (TransitionAlpha s) (F32.lit 0 1) (F32.lit 1 1)) s in
    let s :=
      set_CurrentContext
        (LerpContext (CurrentContext s) (TargetContext s) (TransitionAlpha s))
        s in
    SendControlUpdate s
  else s.

(** [Initialize]: the ticker is registered, after which the host calls
    [Tick] once per frame. *)
Definition Initialize (s : State) : State :=
  emit (UE_LOG Log "[StaticWaves] Subsystem initialized") s.

(** [Deinitialize]: the ticker is removed and the connection dropped. *)
Definition Deinitialize (s : State) : State := Disconnect s.

(** Modelled from the spec: [clamp()] on a context, "projects each field
    into [0,1]".  The source has no such function; it is the yardstick the
    setters are measured against. *)
Definition ClampContext (c : FMusicContext) : FMusicContext :=
  mkContext (FMath.Clamp (Energy c) F32.zero F32.one)
    (FMath.Clamp (Tension c) F32.zero F32.one)
    (FMath.Clamp (Darkness c) F32.zero F32.one)
    (FMath.Clamp (Complexity c) F32.zero F32.one).

(** Every field in the closed unit interval. *)
Definition InRange (c : FMusicContext) : bool :=
  F32.in_unit (Energy c) && F32.in_unit (Tension c)
  && F32.in_unit (Darkness c) && F32.in_unit (Complexity c).

(** The spec's [Connected]: the flag is set and there is a socket to send
    on, the condition [SendControlUpdate] tests. *)
Definition Connected (s : State) : bool :=
  bIsConnected s && IsValid (WebSocket s).

(** The text frames handed to the transport, oldest first. *)
Fixpoint frames (t : list Event) : list string :=
  match t with
  | [] => []
  | SocketSend _ f :: t => f :: frames t
  | _ :: t => frames t
  end.

(** The sockets asked for, oldest first. *)
Fixpoint created (t : list Event) : list nat :=
  match t with
  | [] => []
  | CreateWebSocket w _ :: t => w :: created t
  | _ :: t => created t
  end.

(** The sockets closed, oldest first. *)
Fixpoint closed (t : list Event) : list nat :=
  match t with
  | [] => []
  | SocketClose w :: t => w :: closed t
  | _ :: t => closed t
  end.

(** A run of ticks, one per elapsed-time delta. *)
Fixpoint Ticks (deltas : list float) (s : State) : State :=
  match deltas with
  | [] => s
  | d :: deltas => Ticks deltas (Tick d s)
  end.

(** What [SendControlUpdate] adds to the trace: a frame holding the
    serialized current context and a log line when connected, nothing
    otherwise. *)
Definition push_events (s : State) : list Event :=
  match WebSocket s with
  | Some w =>
      if bIsConnected s then
        [SocketSend w (ToJson (CurrentContext s));
         UE_LOG Verbose ("[StaticWaves] Sent: " ++ ToJson (CurrentContext s))]
      else []
  | None => []
  end.

(** The blend factor a tick arrives at from progress [a] with duration
    [d] after [dt] seconds. *)
Definition advanced (a dt d : float) : float :=
  FMath.Clamp (F32.add a (F32.div dt d)) (F32.lit 0 1) (F32.lit 1 1).

(** [r] is the positive zero or a positive number not above the one of
    mantissa [ma] and exponent [ea], in the order of [SFcompare]:
    exponent before mantissa. *)
Definition below (r : float) (ma : positive) (ea : Z) : Prop :=
  match r with
  | S754_zero false => True
  | S754_finite false mr er => er < ea \/ (er = ea /\ Zpos mr <= Zpos ma)
  | _ => False
  end.

(** [s'] is [s] with a fresh transition toward [target] over [duration]:
    progress back at zero, current context and trace untouched. *)
Definition starts_transition (s s' : State) (target : FMusicContext)
    (duration : float) : Prop :=
  TargetContext s' = target /\
  TransitionDuration s' = duration /\
  TransitionAlpha s' = F32.zero /\
  CurrentContext s' = CurrentContext s /\
  Trace s' = Trace s.

(** The warning of a redundant [Connect]. *)
Definition AlreadyConnected : Event :=
  UE_LOG Warning "[StaticWaves] Already connected".

(** ** Runs of calls *)

(** One call into the subsystem: a public function called by the host, the
    ticker, or a callback run by the socket. *)
Inductive Call : Type :=
| DoInitialize
| DoDeinitialize
| DoConnect (InServerURL : string)
| DoDisconnect
| DoSetMusicContext (Context : FMusicContext)
| DoTransitionToContext (Context : FMusicContext) (TransitionTime : float)
| DoSetExploration
| DoSetCombat
| DoSetBoss
| DoSetPuzzle
| DoSetVictory
| DoPushMusicEvent (EventName : FName) (Intensity : float)
| DoTick (DeltaTime : float)
| GotConnected
| GotConnectionError (Err : string)
| GotClosed (StatusCode : Z) (Reason : string) (bWasClean : bool)
| GotMessage (Message : string)
| GotRawMessage (Size BytesRemaining : N).

Definition perform (c : Call) : State -> State :=
  match c with
  | DoInitialize => Initialize
  | DoDeinitialize => Deinitialize
  | DoConnect u => Connect u
  | DoDisconnect => Disconnect
  | DoSetMusicContext C => SetMusicContext C
  | DoTransitionToContext C t => TransitionToContext C t
  | DoSetExploration => SetExploration
  | DoSetCombat => SetCombat
  | DoSetBoss => SetBoss
  | DoSetPuzzle => SetPuzzle
  | DoSetVictory => SetVictory
  | DoPushMusicEvent n i => PushMusicEvent n i
  | DoTick dt => Tick dt
  | GotConnected => OnConnected
  | GotConnectionError e => OnConnectionError e
  | GotClosed c r b => OnClosed c r b
  | GotMessage m => OnMessage m
  | GotRawMessage n r => OnRawMessage n r
  end.

(** The calls of a list made one after the other, first to last. *)
Fixpoint run (cs : list Call) (s : State) : State :=
  match cs with
  | [] => s
  | c :: cs => run cs (perform c s)
  end.

(** The calls that start a transition: [TransitionToContext], the five
    presets and [PushMusicEvent]. *)
Definition starts (c : Call) : bool :=
  match c with
  | DoTransitionToContext _ _ | DoSetExploration | DoSetCombat | DoSetBoss
  | DoSetPuzzle | DoSetVictory | DoPushMusicEvent _ _ => true
  | _ => false
  end.

(** The calls on the music side: the context setters and the tick. *)
Definition musical (c : Call) : bool :=
  match c with
  | DoSetMusicContext _ | DoTick _ => true
  | c => starts c
  end.

(** The transition time a call passes is a number (not NaN). *)
Definition timed (c : Call) : bool :=
  match c with
  | DoTransitionToContext _ t => negb (F32.is_nan t)
  | _ => true
  end.

(** The members that hold the music: both contexts, progress and
    duration. *)
Definition Music (s : State) : FMusicContext * FMusicContext * float * float :=
  (CurrentContext s, TargetContext s, TransitionAlpha s, TransitionDuration s).

(** The sockets frames were sent on, oldest first. *)
Fixpoint sent_on (t : list Event) : list nat :=
  match t with
  | [] => []
  | SocketSend w _ :: t => w :: sent_on t
  | _ :: t => sent_on t
  end.

(** After each close of a socket the rest of the trace holds no send on
    it. *)
Fixpoint hushed (t : list Event) : bool :=
  match t with
  | [] => true
  | SocketClose w :: t => negb (existsb (Nat.eqb w) (sent_on t)) && hushed t
  | _ :: t => hushed t
  end.

(** The endpoint of the socket asked for last, if any was. *)
Fixpoint last_url (t : list Event) : option string :=
  match t with
  | [] => None
  | CreateWebSocket _ u :: t =>
      match last_url t with Some v => Some v | None => Some u end
  | _ :: t => last_url t
  end.

(** A finite number other than negative zero. *)
Definition ordinary (x : float) : bool :=
  match x with
  | S754_finite _ _ _ | S754_zero false => true
  | _ => false
  end.

(** Every field an ordinary number. *)
Definition Ordinary (c : FMusicContext) : bool :=
  ordinary (Energy c) && ordinary (Tension c)
  && ordinary (Darkness c) && ordinary (Complexity c).

(** The three things a call can do to the transport.  It can be quiet:
    whatever it adds to the trace asks for no socket and closes none, any
    frame in it goes to the socket held, and handle, socket count and
    endpoint stay.  It can close the socket held and let go of it.  Or it
    can ask for a fresh socket, connect it and hold it. *)
Inductive Effect (s s' : State) : Prop :=
| Quiet (u : list Event) :
    Trace s' = Trace s ++ u ->
    closed u = [] -> created u = [] ->
    (forall w, In w (sent_on u) -> WebSocket s = Some w) ->
    WebSocket s' = WebSocket s -> Sockets s' = Sockets s ->
    ServerURL s' = ServerURL s ->
    Effect s s'
| Closes (w : nat) :
    WebSocket s = Some w ->
    Trace s' =
      Trace s ++ [SocketClose w; UE_LOG Log "[StaticWaves] Disconnected"] ->
    WebSocket s' = None -> Sockets s' = Sockets s ->
    ServerURL s' = ServerURL s ->
    Effect s s'
| Opens (url : string) :
    Trace s' =
      Trace s ++
      [CreateWebSocket (Sockets s) url; SocketConnect (Sockets s);
       UE_LOG Log ("[StaticWaves] Connecting to " ++ url ++ "...")] ->
    WebSocket s' = Some (Sockets s) -> Sockets s' = S (Sockets s) ->
    ServerURL s' = url ->
    Effect s s'.

(** The sockets of a state are in order: no frame was sent on a socket
    after its close, no socket was closed twice, the sockets asked for are
    numbered in order, every socket closed or sent on was asked for, and
    the socket held was asked for and is not closed. *)
Definition Disciplined (s : State) : Prop :=
  hushed (Trace s) = true /\
  NoDup (closed (Trace s)) /\
  created (Trace s) = seq 0 (Sockets s) /\
  (forall w, In w (closed (Trace s)) -> (w < Sockets s)%nat) /\
  (forall w, In w (sent_on (Trace s)) -> (w < Sockets s)%nat) /\
  (forall w, WebSocket s = Some w ->
             (w < Sockets s)%nat /\ ~ In w (closed (Trace s))).

(** The peer is up to date: if the subsystem is connected, the frame it
    sent last is its current context. *)
Definition InSync (s : State) : Prop :=
  Connected s = true ->
  exists before : list string,
    frames (Trace s) = before ++ [ToJson (CurrentContext s)].

(** [ServerURL] is the endpoint of the socket asked for last. *)
Definition UrlKept (s : State) : Prop :=
  match last_url (Trace s) with
  | Some u => ServerURL s = u
  | None => True
  end.

(** ** States and inputs used as examples *)

(** A context a caller can pass: energy [2.0f], the rest at the default. *)
Definition Loud : FMusicContext :=
  mkContext (F32.lit 2 1) (F32.lit 5 10) (F32.lit 5 10) (F32.lit 5 10).

Definition localhost : string := "ws://localhost:8765".

(** The subsystem once its first connection is open. *)
Definition Online : State :=
  OnConnected (Connect localhost UStaticWavesMusicSubsystem).

(** * Properties *)

Arguments F32.add : simpl never.
Arguments F32.sub : simpl never.
Arguments F32.mul : simpl never.
Arguments F32.div : simpl never.
Arguments F32.lit : simpl never.
Arguments FMath.Clamp : simpl never.
Arguments FMath.Max : simpl never.
Arguments FMath.Lerp : simpl never.
Arguments ToJson : simpl never.

(** ** Order on single-precision numbers *)

(** The literals of the source are well-formed single-precision numbers,
    with the bit patterns a compiler gives them: [0.1f] is [0x3DCCCCCD],
    [0.5f] is [0x3F000000], [0.9f] is [0x3F666666], [0.95f] is
    [0x3F733333]. *)
Example literals :
  forallb F32.valid
    [F32.lit 0 1; F32.lit 1 10; F32.lit 2 10; F32.lit 3 10; F32.lit 4 10;
     F32.lit 5 10; F32.lit 6 10; F32.lit 7 10; F32.lit 8 10; F32.lit 9 10;
     F32.lit 95 100; F32.lit 1 1] = true /\
  F32.lit 1 10 = S754_finite false 13421773 (-27) /\
  F32.lit 5 10 = S754_finite false 8388608 (-24) /\
  F32.lit 9 10 = S754_finite false 15099494 (-24) /\
  F32.lit 95 100 = S754_finite false 15938355 (-24).
Proof. vm_compute. repeat split. Qed.

(** [%d] of a byte count beyond 31 bits prints its low 32 bits, signed. *)
Example d_wraps :
  Printf.d 4096 = "4096"%string /\
  Printf.d 3000000000 = "-1294967296"%string.
Proof. vm_compute. split; reflexivity. Qed.

(** The default context on the wire, as the spec prints it. *)
Example ToJson_default :
  ToJson FMusicContext_default = JsonFormat "0.50" "0.50" "0.50" "0.50".
Proof. reflexivity. Qed.

Lemma lit_zero : F32.lit 0 1 = F32.zero.
Proof. reflexivity. Qed.

Lemma lit_one : F32.lit 1 1 = F32.one.
Proof. reflexivity. Qed.

Section Order.

Variables x y : float.

Lemma SFcompare_antisym :
  SFcompare y x = option_map CompOpp (SFcompare x y).
Proof.
  destruct x as [sx|sx| |sx mx ex], y as [sy|sy| |sy my ey];
    try (destruct sx); try (destruct sy); try reflexivity.
  all: cbn [SFcompare option_map].
  all: rewrite (Z.compare_antisym ex ey).
  all: change (Pos.compare_cont Eq my mx) with (Pos.compare my mx).
  all: change (Pos.compare_cont Eq mx my) with (Pos.compare mx my).
  all: rewrite (Pos.compare_antisym mx my).
  all: destruct (Z.compare ex ey), (Pos.compare mx my); reflexivity.
Qed.

Lemma leb_ltb_false : F32.leb x y = true -> F32.ltb y x = false.
Proof.
  unfold F32.leb, F32.ltb, SFleb, SFltb.
  rewrite SFcompare_antisym.
  destruct (SFcompare x y) as [[ | | ]|]; cbn; congruence.
Qed.

Lemma ltb_leb : F32.ltb x y = true -> F32.leb x y = true.
Proof.
  unfold F32.leb, F32.ltb, SFleb, SFltb.
  destruct (SFcompare x y) as [[ | | ]|]; congruence.
Qed.

(** Outside NaN the order is total. *)
Lemma leb_false_ltb :
  F32.is_nan x = false -> F32.is_nan y = false ->
  F32.leb x y = false -> F32.ltb y x = true.
Proof.
  unfold F32.leb, F32.ltb, SFleb, SFltb.
  rewrite SFcompare_antisym.
  destruct x as [sx|sx| |sx mx ex], y as [sy|sy| |sy my ey];
    cbn [F32.is_nan]; try discriminate;
    destruct (SFcompare _ _) as [[ | | ]|] eqn:E; cbn; try congruence;
    cbn in E; try discriminate.
  all: try (destruct sx; discriminate).
  all: try (destruct sy; discriminate).
  all: try (destruct sx, sy; discriminate).
Qed.

(** Numbers that compare equal to a finite one are that very number. *)
Lemma SFcompare_Eq_finite (s : bool) (m : positive) (e : Z) :
  SFcompare x (S754_finite s m e) = Some Eq -> x = S754_finite s m e.
Proof.
  destruct x as [sx|sx| |sx mx ex]; cbn.
  - destruct s; discriminate.
  - destruct sx; discriminate.
  - discriminate.
  - destruct sx, s; try discriminate.
    all: destruct (Z.compare ex e) eqn:Ee; try discriminate.
    all: change (Pos.compare_cont Eq mx m) with (Pos.compare mx m).
    all: destruct (Pos.compare mx m) eqn:Em; try discriminate.
    all: intros _; apply Z.compare_eq in Ee; apply Pos.compare_eq in Em.
    all: congruence.
Qed.

Lemma SFcompare_refl : F32.is_nan x = false -> SFcompare x x = Some Eq.
Proof.
  destruct x as [sx|sx| |sx mx ex]; cbn; try discriminate; intros _.
  - reflexivity.
  - destruct sx; reflexivity.
  - change (Pos.compare_cont Eq mx mx) with (Pos.compare mx mx).
    rewrite Z.compare_refl, Pos.compare_refl. destruct sx; reflexivity.
Qed.

End Order.

(** ** Clamping *)

Section Clamping.

Variable x : float.

(** Whatever comes in, NaN and the infinities included, what comes out
    lies in [0,1]. *)
Lemma Clamp_in_unit : F32.in_unit (FMath.Clamp x F32.zero F32.one) = true.
Proof.
  unfold FMath.Clamp.
  destruct (F32.ltb x F32.zero) eqn:H0; [reflexivity|].
  destruct (F32.ltb x F32.one) eqn:H1; [|reflexivity].
  unfold F32.in_unit. rewrite (ltb_leb _ _ H1), andb_true_r.
  destruct x as [sx|sx| |sx mx ex]; try reflexivity; try discriminate;
    destruct sx; try reflexivity; discriminate.
Qed.

(** A number already in [0,1] is left alone. *)
Lemma Clamp_id : F32.in_unit x = true -> FMath.Clamp x F32.zero F32.one = x.
Proof.
  unfold F32.in_unit. intros H. apply andb_true_iff in H as [H0 H1].
  unfold FMath.Clamp. rewrite (leb_ltb_false _ _ H0).
  destruct (F32.ltb x F32.one) eqn:Hlt; [reflexivity|].
  unfold F32.leb, SFleb in H1. unfold F32.ltb, SFltb in Hlt.
  destruct (SFcompare x F32.one) as [[ | | ]|] eqn:E; try discriminate.
  symmetry. exact (SFcompare_Eq_finite _ _ _ _ E).
Qed.

(** A number at or above one is brought down to exactly one. *)
Lemma Clamp_ge_one :
  F32.leb F32.one x = true -> FMath.Clamp x F32.zero F32.one = F32.one.
Proof.
  intros H. unfold FMath.Clamp. rewrite (leb_ltb_false _ _ H).
  destruct x as [sx|sx| |sx mx ex]; try discriminate;
    destruct sx; try discriminate; reflexivity.
Qed.

End Clamping.

Lemma ClampContext_id (c : FMusicContext) :
  InRange c = true -> ClampContext c = c.
Proof.
  unfold InRange. intros H.
  apply andb_true_iff in H as [H Hc].
  apply andb_true_iff in H as [H Hd].
  apply andb_true_iff in H as [He Ht].
  destruct c as [e t d x]. unfold ClampContext. cbn in *.
  now rewrite !Clamp_id.
Qed.

(** ** Sending *)

Lemma SendControlUpdate_emits (s : State) :
  SendControlUpdate s =
  mkState (WebSocket s) (CurrentContext s) (TargetContext s)
    (TransitionAlpha s) (TransitionDuration s) (bIsConnected s)
    (ServerURL s) (Sockets s) (Trace s ++ push_events s).
Proof.
  unfold SendControlUpdate, push_events, emit.
  destruct s as [[w|] c t a d [|] u n tr]; cbn;
    rewrite <- ?app_assoc, ?app_nil_r; reflexivity.
Qed.

Lemma frames_app (t u : list Event) : frames (t ++ u) = frames t ++ frames u.
Proof.
  induction t as [|e t IH]; [reflexivity|].
  destruct e; cbn; rewrite IH; reflexivity.
Qed.

Lemma frames_push_events (s : State) :
  frames (push_events s) =
  if Connected s then [ToJson (CurrentContext s)] else [].
Proof.
  unfold push_events, Connected.
  destruct (WebSocket s), (bIsConnected s); reflexivity.
Qed.

(** ** The transition engine *)

Lemma Tick_running (s : State) (dt : float) :
  F32.ltb (TransitionAlpha s) F32.one = true ->
  Tick dt s =
  let p := advanced (TransitionAlpha s) dt (TransitionDuration s) in
  let c := LerpContext (CurrentContext s) (TargetContext s) p in
  SendControlUpdate
    (mkState (WebSocket s) c (TargetContext s) p (TransitionDuration s)
       (bIsConnected s) (ServerURL s) (Sockets s) (Trace s)).
Proof.
  intros H. unfold Tick. rewrite lit_one, H. reflexivity.
Qed.

Lemma Tick_idle (s : State) (dt : float) :
  F32.ltb (TransitionAlpha s) F32.one = false -> Tick dt s = s.
Proof.
  intros H. unfold Tick. rewrite lit_one, H. reflexivity.
Qed.

(** A running tick, opened up to the record it builds. *)
Ltac tick_runs H :=
  rewrite (Tick_running _ _ H); cbv zeta; rewrite SendControlUpdate_emits.

(** The bounds of the progress clamp, as the constants [0] and [1]. *)
Ltac clamp_bounds := unfold advanced; rewrite lit_zero, lit_one.

Lemma advanced_in_unit (a dt d : float) :
  F32.in_unit (advanced a dt d) = true.
Proof. clamp_bounds. apply Clamp_in_unit. Qed.

(** C1.  While a transition is running ([TransitionAlpha < 1]) a tick adds
    [DeltaTime / TransitionDuration] to the progress, clamps it into
    [0,1], and then sets each of the four fields of the current context
    to the interpolation from its own live value toward the target at the
    new progress; target and duration stay.  With the progress at or
    above one the tick changes nothing at all. *)
Theorem Tick_relerp_from_live (s : State) (DeltaTime : float) :
  (F32.ltb (TransitionAlpha s) F32.one = true ->
   let p :=
     FMath.Clamp
       (F32.add (TransitionAlpha s) (F32.div DeltaTime (TransitionDuration s)))
       F32.zero F32.one in
   let s' := Tick DeltaTime s in
   TransitionAlpha s' = p /\
   F32.in_unit p = true /\
   Energy (CurrentContext s') =
     FMath.Lerp (Energy (CurrentContext s)) (Energy (TargetContext s)) p /\
   Tension (CurrentContext s') =
     FMath.Lerp (Tension (CurrentContext s)) (Tension (TargetContext s)) p /\
   Darkness (CurrentContext s') =
     FMath.Lerp (Darkness (CurrentContext s)) (Darkness (TargetContext s)) p /\
   Complexity (CurrentContext s') =
     FMath.Lerp (Complexity (CurrentContext s)) (Complexity (TargetContext s)) p /\
   TargetContext s' = TargetContext s /\
   TransitionDuration s' = TransitionDuration s)
  /\
  (F32.leb F32.one (TransitionAlpha s) = true -> Tick DeltaTime s = s).
Proof.
  split.
  - intros H. cbv zeta. tick_runs H. cbn.
    repeat split. apply advanced_in_unit.
  - intros H. apply Tick_idle. now apply leb_ltb_false.
Qed.

(** C1 at a concrete state: the first tick of the combat transition, a
    quarter of a second in. *)
Lemma Tick_relerp_from_live_witness :
  let s := SetCombat UStaticWavesMusicSubsystem in
  F32.ltb (TransitionAlpha s) F32.one = true /\
  F32.leb F32.one (TransitionAlpha UStaticWavesMusicSubsystem) = true /\
  Energy (CurrentContext (Tick (F32.lit 25 100) s)) = F32.lit 6 10 /\
  Tick (F32.lit 25 100) UStaticWavesMusicSubsystem = UStaticWavesMusicSubsystem.
Proof.
  cbv zeta. split; [reflexivity|]. split; [reflexivity|]. split.
  - destruct (Tick_relerp_from_live (SetCombat UStaticWavesMusicSubsystem)
                (F32.lit 25 100)) as [H _].
    destruct (H eq_refl) as (_ & _ & He & _).
    rewrite He. vm_compute. reflexivity.
  - destruct (Tick_relerp_from_live UStaticWavesMusicSubsystem
                (F32.lit 25 100)) as [_ H].
    apply H. reflexivity.
Defined.

(** The interpolation starts from the live value each tick, so two ticks of
    a quarter second do not land where one interpolation from the starting
    value at progress one half would: energy reaches 0.75, not 0.7. *)
Example Tick_twice_is_not_linear :
  let s := SetCombat UStaticWavesMusicSubsystem in
  let s2 := Tick (F32.lit 25 100) (Tick (F32.lit 25 100) s) in
  TransitionAlpha s2 = F32.lit 5 10 /\
  Energy (CurrentContext s2) = F32.lit 75 100 /\
  FMath.Lerp (Energy (CurrentContext s)) (Energy (TargetContext s))
    (TransitionAlpha s2) = F32.lit 7 10.
Proof. vm_compute. repeat split. Qed.

(** ** The setters *)

Lemma SetMusicContext_stores (C : FMusicContext) (s : State) :
  CurrentContext (SetMusicContext C s) = C /\
  TargetContext (SetMusicContext C s) = C /\
  TransitionAlpha (SetMusicContext C s) = F32.one.
Proof.
  unfold SetMusicContext. rewrite SendControlUpdate_emits. cbn.
  repeat split.
Qed.

Lemma TransitionToContext_stores (C : FMusicContext) (d : float) (s : State) :
  TransitionToContext C d s =
  mkState (WebSocket s) (CurrentContext s) C F32.zero
    (FMath.Max (F32.lit 1 10) d) (bIsConnected s) (ServerURL s)
    (Sockets s) (Trace s).
Proof. reflexivity. Qed.

(** The floor of a tenth of a second holds for every duration that is a
    number. *)
Lemma Max_floor (d : float) :
  F32.is_nan d = false ->
  F32.leb (F32.lit 1 10) (FMath.Max (F32.lit 1 10) d) = true.
Proof.
  intros Hd. unfold FMath.Max.
  destruct (F32.leb d (F32.lit 1 10)) eqn:E; [reflexivity|].
  apply ltb_leb, leb_false_ltb; auto.
Qed.

Lemma Ticks_idle (deltas : list float) (s : State) :
  F32.ltb (TransitionAlpha s) F32.one = false -> Ticks deltas s = s.
Proof.
  intros H. induction deltas as [|d deltas IH]; [reflexivity|].
  cbn. rewrite (Tick_idle s d H). exact IH.
Qed.

(** C2.  The setters store the context as it is passed.  With energy
    [2.0f], [SetMusicContext] leaves current and target out of range and,
    once connected, puts [2.00] on the wire; [TransitionToContext] leaves
    the target out of range, and the tick that ends the transition carries
    the value into the current context.  Only the intensity of
    [PushMusicEvent] is clamped. *)
Theorem setters_do_not_clamp :
  InRange Loud = false /\
  F32.in_unit (Energy (CurrentContext (SetMusicContext Loud Online))) = false /\
  F32.in_unit (Energy (TargetContext (SetMusicContext Loud Online))) = false /\
  frames (Trace (SetMusicContext Loud Online)) =
    frames (Trace Online) ++
    [JsonFormat "2.00" "0.50" "0.50" "0.50"] /\
  F32.in_unit
    (Energy (TargetContext
       (TransitionToContext Loud DefaultTransitionTime Online))) = false /\
  Energy (CurrentContext
    (Tick (F32.lit 1 1)
       (TransitionToContext Loud DefaultTransitionTime Online))) = F32.lit 2 1.
Proof. vm_compute. repeat split. Qed.

(** C3, refuted as stated: the target is the context passed, not its
    clamped form. *)
Lemma TransitionToContext_target_not_clamped :
  TargetContext
    (TransitionToContext Loud DefaultTransitionTime UStaticWavesMusicSubsystem)
  <> ClampContext Loud.
Proof. vm_compute. discriminate. Qed.

(** C3.  For a context with every field in [0,1] (its clamped form is
    itself) and any duration, [TransitionToContext] makes it the target,
    sets the duration to the larger of the given one and a tenth of a
    second, resets the progress to zero and leaves the current context
    alone, a transition in flight or not; the next tick therefore
    interpolates from the live current value toward the new target. *)
Theorem TransitionToContext_retargets_from_live
    (s : State) (C : FMusicContext) (d : float) :
  InRange C = true ->
  let s' := TransitionToContext C d s in
  TargetContext s' = ClampContext C /\
  TransitionDuration s' = FMath.Max (F32.lit 1 10) d /\
  (F32.is_nan d = false ->
   F32.leb (F32.lit 1 10) (TransitionDuration s') = true) /\
  TransitionAlpha s' = F32.zero /\
  CurrentContext s' = CurrentContext s /\
  forall dt : float,
    CurrentContext (Tick dt s') =
    LerpContext (CurrentContext s) (ClampContext C)
      (FMath.Clamp (F32.add F32.zero (F32.div dt (FMath.Max (F32.lit 1 10) d)))
         F32.zero F32.one).
Proof.
  intros HC. cbv zeta. rewrite (ClampContext_id C HC).
  rewrite TransitionToContext_stores. cbn.
  repeat split.
  - apply Max_floor.
  - intros dt. rewrite Tick_running by reflexivity.
    cbv zeta. rewrite SendControlUpdate_emits. reflexivity.
Qed.

(** C3 at a concrete state: half a second into the combat transition the
    subsystem is sent toward the puzzle preset. *)
Lemma TransitionToContext_retargets_from_live_witness :
  let s := Tick (F32.lit 5 10) (SetCombat UStaticWavesMusicSubsystem) in
  InRange PuzzleContext = true /\
  Energy (CurrentContext s) = F32.lit 7 10 /\
  CurrentContext (TransitionToContext PuzzleContext (F32.lit 0 1) s) =
    CurrentContext s /\
  TransitionDuration (TransitionToContext PuzzleContext (F32.lit 0 1) s) =
    F32.lit 1 10.
Proof.
  cbv zeta. split; [reflexivity|]. split; [reflexivity|].
  destruct (TransitionToContext_retargets_from_live
              (Tick (F32.lit 5 10) (SetCombat UStaticWavesMusicSubsystem))
              PuzzleContext (F32.lit 0 1) eq_refl)
    as (_ & Hd & _ & _ & Hc & _).
  split; [exact Hc|]. rewrite Hd. reflexivity.
Defined.

(** C4, refuted as stated: the current context is the context passed, not
    its clamped form. *)
Lemma SetMusicContext_current_not_clamped :
  CurrentContext (SetMusicContext Loud UStaticWavesMusicSubsystem)
  <> ClampContext Loud.
Proof. vm_compute. discriminate. Qed.

(** C4.  For a context with every field in [0,1] (its clamped form is
    itself), [SetMusicContext] makes it both the current and the target
    context and sets the progress to one; every tick after that, whatever
    the delta, and every run of ticks, leaves the whole state as it is. *)
Theorem SetMusicContext_settles (s : State) (C : FMusicContext) :
  InRange C = true ->
  let s' := SetMusicContext C s in
  CurrentContext s' = ClampContext C /\
  TargetContext s' = ClampContext C /\
  TransitionAlpha s' = F32.one /\
  (forall dt : float, Tick dt s' = s') /\
  (forall deltas : list float, Ticks deltas s' = s').
Proof.
  intros HC. cbv zeta. rewrite (ClampContext_id C HC).
  destruct (SetMusicContext_stores C s) as (Hc & Ht & Ha).
  repeat split; auto.
  - intros dt. apply Tick_idle. rewrite Ha. reflexivity.
  - intros deltas. apply Ticks_idle. rewrite Ha. reflexivity.
Qed.

(** C4 at a concrete state: an immediate set in the middle of the combat
    transition. *)
Lemma SetMusicContext_settles_witness :
  let s := Tick (F32.lit 5 10) (SetCombat UStaticWavesMusicSubsystem) in
  InRange VictoryContext = true /\
  F32.ltb (TransitionAlpha s) F32.one = true /\
  CurrentContext (Tick (F32.lit 5 10) (SetMusicContext VictoryContext s)) =
    VictoryContext.
Proof.
  cbv zeta. split; [reflexivity|]. split; [reflexivity|].
  destruct (SetMusicContext_settles
              (Tick (F32.lit 5 10) (SetCombat UStaticWavesMusicSubsystem))
              VictoryContext eq_refl)
    as (Hc & _ & _ & Ht & _).
  rewrite Ht, Hc. reflexivity.
Defined.

(** ** The end of a transition *)

(** C10, refuted as stated: from the default context, [SetExploration]
    followed by one tick of a full second brings the progress to exactly
    one, yet tension stops one unit in the last place short of the
    target's [0.1f], and darkness one short of [0.2f]. *)
Lemma Tick_final_not_bit_equal :
  let s := Tick (F32.lit 1 1) (SetExploration UStaticWavesMusicSubsystem) in
  TransitionAlpha s = F32.one /\
  Tension (TargetContext s) = S754_finite false 13421773 (-27) /\
  Tension (CurrentContext s) = S754_finite false 13421772 (-27) /\
  Tension (CurrentContext s) <> Tension (TargetContext s) /\
  Darkness (CurrentContext s) <> Darkness (TargetContext s) /\
  CurrentContext s <> TargetContext s.
Proof. vm_compute. repeat split; discriminate. Qed.

(** C10.  On the tick in which the accumulated progress reaches or passes
    one, the progress is clamped to exactly one, each field of the current
    context becomes the single-precision value of
    [current + 1.0 * (target - current)], and the transition is over: every
    later tick leaves the state as it is. *)
Theorem Tick_reaches_end (s : State) (DeltaTime : float) :
  F32.ltb (TransitionAlpha s) F32.one = true ->
  F32.leb F32.one
    (F32.add (TransitionAlpha s) (F32.div DeltaTime (TransitionDuration s)))
    = true ->
  let s' := Tick DeltaTime s in
  TransitionAlpha s' = F32.one /\
  Energy (CurrentContext s') =
    F32.add (Energy (CurrentContext s))
      (F32.mul F32.one
         (F32.sub (Energy (TargetContext s)) (Energy (CurrentContext s)))) /\
  Tension (CurrentContext s') =
    F32.add (Tension (CurrentContext s))
      (F32.mul F32.one
         (F32.sub (Tension (TargetContext s)) (Tension (CurrentContext s)))) /\
  Darkness (CurrentContext s') =
    F32.add (Darkness (CurrentContext s))
      (F32.mul F32.one
         (F32.sub (Darkness (TargetContext s)) (Darkness (CurrentContext s)))) /\
  Complexity (CurrentContext s') =
    F32.add (Complexity (CurrentContext s))
      (F32.mul F32.one
         (F32.sub (Complexity (TargetContext s))
            (Complexity (CurrentContext s)))) /\
  forall dt : float, Tick dt s' = s'.
Proof.
  intros Hrun Hend. cbv zeta.
  assert (Ha : TransitionAlpha (Tick DeltaTime s) = F32.one).
  { tick_runs Hrun. cbn.
    clamp_bounds. now apply Clamp_ge_one. }
  split; [exact Ha|].
  tick_runs Hrun. cbn.
  clamp_bounds. rewrite (Clamp_ge_one _ Hend).
  do 4 (split; [reflexivity|]).
  intros dt. apply Tick_idle. reflexivity.
Qed.

(** C10 at a concrete state: the combat transition, ended by one tick of a
    second and a half; here the arithmetic happens to be exact. *)
Lemma Tick_reaches_end_witness :
  let s := SetCombat UStaticWavesMusicSubsystem in
  F32.ltb (TransitionAlpha s) F32.one = true /\
  F32.leb F32.one
    (F32.add (TransitionAlpha s)
       (F32.div (F32.lit 15 10) (TransitionDuration s))) = true /\
  TransitionAlpha (Tick (F32.lit 15 10) s) = F32.one /\
  Energy (CurrentContext (Tick (F32.lit 15 10) s)) = F32.lit 9 10.
Proof.
  cbv zeta. split; [reflexivity|]. split; [reflexivity|].
  destruct (Tick_reaches_end (SetCombat UStaticWavesMusicSubsystem)
              (F32.lit 15 10) eq_refl eq_refl) as (Ha & He & _).
  split; [exact Ha|]. rewrite He. reflexivity.
Defined.

(** The end-to-end run of the presets: after a tick of one second the
    current context serializes exactly as the target does, also where the
    last bit differs. *)
Example presets_converge_on_the_wire :
  let done (f : State -> State) :=
    Tick (F32.lit 1 1) (f UStaticWavesMusicSubsystem) in
  ToJson (CurrentContext (done SetCombat)) = ToJson CombatContext /\
  ToJson (CurrentContext (done SetExploration)) = ToJson ExplorationContext /\
  ToJson (CurrentContext (done SetBoss)) = ToJson BossContext /\
  ToJson (CurrentContext (done SetPuzzle)) = ToJson PuzzleContext /\
  ToJson (CurrentContext (done SetVictory)) = ToJson VictoryContext /\
  CurrentContext (done SetCombat) = CombatContext.
Proof. vm_compute. repeat split. Qed.

(** ** Rounding to single precision *)

Lemma fexp32 (z : Z) : fexp 24 128 z = Z.max (z - 24) (-149).
Proof. reflexivity. Qed.

Lemma digits2_size (p : positive) : digits2_pos p = Pos.size p.
Proof. induction p; cbn; now rewrite ?IHp. Qed.

Lemma digits2_upper (p : positive) : Zpos p < 2 ^ Zpos (digits2_pos p).
Proof.
  rewrite digits2_size. pose proof (Pos.size_gt p) as H.
  apply Pos2Z.pos_lt_pos in H. now rewrite Pos2Z.inj_pow in H.
Qed.

Lemma digits2_lower (p : positive) : 2 ^ Zpos (digits2_pos p) <= 2 * Zpos p.
Proof.
  rewrite digits2_size. pose proof (Pos.size_le p) as H.
  apply Pos2Z.pos_le_pos in H. now rewrite Pos2Z.inj_pow in H.
Qed.

Lemma shr_1_div (mrs : shr_record) :
  0 <= shr_m mrs -> shr_m (shr_1 mrs) = shr_m mrs / 2.
Proof.
  destruct mrs as [m r s]. cbn [shr_m]. intros Hm.
  rewrite <- Z.div2_div.
  destruct m as [|p|p]; [reflexivity| |lia].
  destruct p; reflexivity.
Qed.

Lemma shr_iter_div (n : positive) (mrs : shr_record) :
  0 <= shr_m mrs ->
  shr_m (iter_pos shr_1 n mrs) = shr_m mrs / 2 ^ Zpos n.
Proof.
  revert mrs. induction n as [n IH|n IH|]; intros mrs Hm; cbn [iter_pos].
  - assert (H1 : 0 <= shr_m (shr_1 mrs))
      by (rewrite shr_1_div by auto; apply Z.div_pos; lia).
    assert (H2 : 0 <= shr_m (iter_pos shr_1 n (shr_1 mrs)))
      by (rewrite IH by auto; apply Z.div_pos; lia).
    rewrite (IH _ H2), (IH _ H1), shr_1_div by auto.
    rewrite !Z.div_div by lia. f_equal.
    replace (Zpos n~1) with (1 + Zpos n + Zpos n) by lia.
    rewrite !Z.pow_add_r by lia. change (2 ^ 1) with 2. ring.
  - assert (H2 : 0 <= shr_m (iter_pos shr_1 n mrs))
      by (rewrite IH by auto; apply Z.div_pos; lia).
    rewrite (IH _ H2), (IH _ Hm).
    rewrite Z.div_div by lia. f_equal.
    replace (Zpos n~0) with (Zpos n + Zpos n) by lia.
    now rewrite Z.pow_add_r by lia.
  - now apply shr_1_div.
Qed.

(** One stage of the rounding shift. *)
Lemma shr_fexp_spec (m e : Z) (l : location) :
  0 <= m ->
  let n := fexp 24 128 (Zdigits2 m + e) - e in
  (n <= 0 -> shr_fexp 24 128 m e l = (shr_record_of_loc m l, e)) /\
  (0 < n ->
   exists mrs, shr_fexp 24 128 m e l = (mrs, e + n) /\
               shr_m mrs = m / 2 ^ n).
Proof.
  intros Hm n. unfold shr_fexp, shr. fold n.
  destruct n as [|k|k] eqn:En; split; intros H; try lia; try reflexivity.
  eexists. split; [reflexivity|].
  rewrite shr_iter_div; destruct l as [|[ | | ]]; cbn [shr_record_of_loc shr_m];
    auto.
Qed.

Lemma rne_bounds (m : Z) (l : location) :
  m <= round_nearest_even m l <= m + 1.
Proof.
  destruct l as [|[ | | ]]; cbn; try lia. destruct (Z.even m); lia.
Qed.

(** The rounding of a non-negative mantissa keeps the sign it is given
    and never makes a NaN. *)
Lemma binary_round_aux_sign (sx : bool) (mx ex : Z) (lx : location) :
  0 <= mx ->
  match binary_round_aux 24 128 sx mx ex lx with
  | S754_nan => False
  | S754_zero s | S754_infinity s | S754_finite s _ _ => s = sx
  end.
Proof.
  intros Hm. unfold binary_round_aux.
  destruct (shr_fexp 24 128 mx ex lx) as [mrs' e'] eqn:E1.
  assert (H1 : 0 <= shr_m mrs').
  { destruct (shr_fexp_spec mx ex lx Hm) as [Hn Hp].
    destruct (Z_le_gt_dec (fexp 24 128 (Zdigits2 mx + ex) - ex) 0) as [H|H].
    - rewrite (Hn H) in E1. injection E1 as <- _.
      destruct lx as [|[ | | ]]; exact Hm.
    - destruct Hp as (mrs & E & Hd); [lia|]. rewrite E in E1.
      injection E1 as <- _. rewrite Hd. apply Z.div_pos; lia. }
  set (m1 := round_nearest_even (shr_m mrs') (loc_of_shr_record mrs')).
  assert (H2 : 0 <= m1)
    by (pose proof (rne_bounds (shr_m mrs') (loc_of_shr_record mrs')); lia).
  destruct (shr_fexp 24 128 m1 e' loc_Exact) as [mrs'' e''] eqn:E2.
  assert (H3 : 0 <= shr_m mrs'').
  { destruct (shr_fexp_spec m1 e' loc_Exact H2) as [Hn Hp].
    destruct (Z_le_gt_dec (fexp 24 128 (Zdigits2 m1 + e') - e') 0) as [H|H].
    - rewrite (Hn H) in E2. injection E2 as <- _. exact H2.
    - destruct Hp as (mrs & E & Hd); [lia|]. rewrite E in E2.
      injection E2 as <- _. rewrite Hd. apply Z.div_pos; lia. }
  destruct (shr_m mrs'') as [|p|p]; [reflexivity| |lia].
  destruct (e'' <=? 128 - 24); reflexivity.
Qed.

Lemma iter_xO_value (p d : positive) :
  Zpos (Pos.iter xO p d) = Zpos p * 2 ^ Zpos d /\
  Zpos (digits2_pos (Pos.iter xO p d)) = Zpos (digits2_pos p) + Zpos d.
Proof.
  induction d as [|d IH] using Pos.peano_ind.
  - cbn [Pos.iter digits2_pos]. split; [now rewrite Pos2Z.inj_xO; lia|lia].
  - rewrite Pos.iter_succ. destruct IH as [IH1 IH2].
    cbn [digits2_pos]. rewrite Pos2Z.inj_xO, IH1, Pos2Z.inj_succ.
    rewrite Pos2Z.inj_succ, IH2, Z.pow_succ_r by lia. split; lia.
Qed.

Lemma no_shift (sx : bool) (m : positive) (e : Z) :
  fexp 24 128 (Zpos (digits2_pos m) + e) <= e -> e <= 104 ->
  binary_round_aux 24 128 sx (Zpos m) e loc_Exact = S754_finite sx m e.
Proof.
  intros Hf He. unfold binary_round_aux.
  assert (Hn : fexp 24 128 (Zdigits2 (Zpos m) + e) - e <= 0)
    by (cbn [Zdigits2]; lia).
  rewrite (proj1 (shr_fexp_spec (Zpos m) e loc_Exact ltac:(lia)) Hn).
  cbn [shr_record_of_loc shr_m loc_of_shr_record round_nearest_even].
  rewrite (proj1 (shr_fexp_spec (Zpos m) e loc_Exact ltac:(lia)) Hn).
  cbn [shr_record_of_loc shr_m].
  replace (e <=? 128 - 24) with true; [reflexivity|].
  symmetry. apply Z.leb_le. lia.
Qed.

Lemma round_below (p ma : positive) (ez ea : Z) :
  bounded 24 128 ma ea = true ->
  ez <= ea ->
  Zpos p < Zpos ma * 2 ^ (ea - ez) ->
  below (binary_round 24 128 false p ez) ma ea.
Proof.
  intros Hb Hez Hlt.
  unfold bounded, canonical_mantissa in Hb.
  apply andb_true_iff in Hb as [Hcan Hmax].
  apply Z.eqb_eq in Hcan. apply Z.leb_le in Hmax.
  rewrite fexp32 in Hcan. change (128 - 24) with 104 in Hmax.
  set (dm := Zpos (digits2_pos ma)) in *.
  set (dp := Zpos (digits2_pos p)).
  pose proof (digits2_upper p) as Hpu. pose proof (digits2_lower p) as Hpl.
  pose proof (digits2_upper ma) as Hmu. pose proof (digits2_lower ma) as Hml.
  fold dp in Hpu, Hpl. fold dm in Hmu, Hml.
  assert (Hdm : 0 < dm) by (unfold dm; lia).
  assert (Hdp : 0 < dp) by (unfold dp; lia).
  assert (Hpow : 0 < 2 ^ (ea - ez)) by (apply Z.pow_pos_nonneg; lia).
  assert (Hd : dp + ez <= dm + ea).
  { assert (H : 2 ^ dp < 2 ^ (dm + (ea - ez) + 1)).
    { rewrite Z.pow_add_r, Z.pow_add_r by lia. change (2 ^ 1) with 2. nia. }
    apply Z.pow_lt_mono_r_iff in H; lia. }
  set (e1 := fexp 24 128 (dp + ez)).
  assert (He1 : e1 = Z.max (dp + ez - 24) (-149)) by reflexivity.
  assert (He1a : e1 <= ea) by lia.
  unfold binary_round. fold dp. fold e1.
  unfold shl_align.
  destruct (e1 - ez) as [|n|d] eqn:En.
  - (* the exponent fits: nothing is shifted *)
    rewrite no_shift by (fold dp; fold e1; lia).
    cbn [below]. destruct (Z.eq_dec ez ea) as [E|E]; [right|left; lia].
    split; [exact E|]. replace (ea - ez) with 0 in Hlt by lia.
    change (2 ^ 0) with 1 in Hlt. lia.
  - (* the mantissa is too long: it is shifted right and rounded *)
    unfold binary_round_aux.
    assert (Hn : 0 < fexp 24 128 (Zdigits2 (Zpos p) + ez) - ez)
      by (cbn [Zdigits2]; fold dp; fold e1; lia).
    destruct (proj2 (shr_fexp_spec (Zpos p) ez loc_Exact ltac:(lia)) Hn)
      as (mrs' & E1 & Hf).
    rewrite E1. cbn [Zdigits2] in Hf, E1. fold dp in Hf. fold e1 in Hf.
    rewrite En in Hf.
    replace (ez + (fexp 24 128 (Zdigits2 (Zpos p) + ez) - ez)) with e1
      by (cbn [Zdigits2]; fold dp; fold e1; lia).
    set (f := shr_m mrs') in *.
    set (m1 := round_nearest_even f (loc_of_shr_record mrs')).
    pose proof (rne_bounds f (loc_of_shr_record mrs')) as Hm1. fold m1 in Hm1.
    assert (Hf0 : 0 <= f) by (rewrite Hf; apply Z.div_pos; lia).
    assert (Hn2 : 0 < 2 ^ Zpos n) by (apply Z.pow_pos_nonneg; lia).
    assert (Hf24 : f < 2 ^ 24).
    { rewrite Hf. apply Z.div_lt_upper_bound; [lia|].
      rewrite <- Z.pow_add_r by lia.
      apply Z.lt_le_trans with (1 := Hpu).
      apply Z.pow_le_mono_r; lia. }
    assert (Hfa : e1 = ea -> f < Zpos ma).
    { intros E. rewrite Hf. apply Z.div_lt_upper_bound; [lia|].
      replace (Zpos n) with (ea - ez) by lia. lia. }
    change (2 ^ 24) with 16777216 in Hf24.
    destruct (Z.eq_dec m1 0) as [Z0|NZ0].
    + (* rounded down to zero *)
      rewrite Z0.
      rewrite (proj1 (shr_fexp_spec 0 e1 loc_Exact ltac:(lia)))
        by (cbn [Zdigits2]; rewrite fexp32; lia).
      reflexivity.
    + destruct m1 as [|q|q] eqn:Eq; [lia| |lia].
      pose proof (digits2_upper q) as Hqu. pose proof (digits2_lower q) as Hql.
      set (dq := Zpos (digits2_pos q)) in *.
      destruct (Z_lt_ge_dec (Zpos q) 16777216) as [Hq|Hq].
      * (* the rounded mantissa still has at most 24 digits *)
        assert (Hdq : dq <= 24).
        { assert (H : 2 ^ dq < 2 ^ 25)
            by (change (2 ^ 25) with 33554432; lia).
          apply Z.pow_lt_mono_r_iff in H; lia. }
        rewrite (proj1 (shr_fexp_spec (Zpos q) e1 loc_Exact ltac:(lia)))
          by (cbn [Zdigits2]; fold dq; rewrite fexp32; lia).
        cbn [shr_record_of_loc shr_m].
        replace (e1 <=? 128 - 24) with true
          by (symmetry; apply Z.leb_le; lia).
        cbn [below]. destruct (Z.eq_dec e1 ea) as [E|E]; [right|left; lia].
        split; [exact E|]. specialize (Hfa E). lia.
      * (* the rounding carried into a 25th digit *)
        assert (Hq24 : Zpos q = 16777216) by lia.
        assert (Hff : f = 16777215) by lia.
        assert (He1lt : e1 < ea).
        { destruct (Z.eq_dec e1 ea) as [E|E]; [|lia].
          specialize (Hfa E).
          assert (H : 2 ^ dm <= 2 ^ 24) by (apply Z.pow_le_mono_r; lia).
          change (2 ^ 24) with 16777216 in H. lia. }
        injection Hq24 as ->.
        destruct (proj2 (shr_fexp_spec 16777216 e1 loc_Exact ltac:(lia)))
          as (mrs'' & E2 & Hf2).
        { cbn [Zdigits2 digits2_pos Pos.succ]. rewrite fexp32. lia. }
        rewrite E2, Hf2.
        replace (fexp 24 128 (Zdigits2 16777216 + e1) - e1) with 1
          by (cbn [Zdigits2 digits2_pos Pos.succ]; rewrite fexp32; lia).
        change (16777216 / 2 ^ 1) with 8388608.
        cbv beta iota.
        replace (e1 + 1 <=? 128 - 24) with true
          by (symmetry; apply Z.leb_le; lia).
        cbn [below]. destruct (Z.eq_dec (e1 + 1) ea) as [E|E]; [right|left; lia].
        split; [exact E|].
        assert (Hdm24 : dm = 24) by lia.
        rewrite Hdm24 in Hml. change (2 ^ 24) with 16777216 in Hml. lia.
  - (* the mantissa is short: it is shifted left, exactly *)
    destruct (iter_xO_value p d) as [Hv Hdg].
    rewrite no_shift.
    + cbn [below]. left. lia.
    + rewrite Hdg. fold dp.
      replace (dp + Zpos d + e1) with (dp + ez) by lia. fold e1. lia.
    + lia.
Qed.

Lemma binary_round_sign (sx : bool) (p : positive) (e : Z) :
  match binary_round 24 128 sx p e with
  | S754_nan => False
  | S754_zero s | S754_infinity s | S754_finite s _ _ => s = sx
  end.
Proof.
  unfold binary_round.
  destruct (shl_align p e (fexp 24 128 (Zpos (digits2_pos p) + e)))
    as [mz ez].
  apply binary_round_aux_sign. lia.
Qed.

Lemma div_eucl_nonneg (a b : Z) :
  0 <= a -> 0 < b -> 0 <= fst (Z.div_eucl a b).
Proof.
  intros Ha Hb. pose proof (Z_div_mod a b ltac:(lia)) as H.
  destruct (Z.div_eucl a b) as [q r]. cbn [fst]. nia.
Qed.

(** A quotient of finite numbers is never NaN and carries the product of
    the signs, also when it underflows to zero or overflows. *)
Lemma SFdiv_sign (sx sy : bool) (mx my : positive) (ex ey : Z) :
  match SFdiv 24 128 (S754_finite sx mx ex) (S754_finite sy my ey) with
  | S754_nan => False
  | S754_zero s | S754_infinity s | S754_finite s _ _ => s = xorb sx sy
  end.
Proof.
  unfold SFdiv.
  destruct (SFdiv_core_binary 24 128 (Zpos mx) ex (Zpos my) ey)
    as [[mz ez] lz] eqn:E.
  apply binary_round_aux_sign.
  unfold SFdiv_core_binary in E. cbv zeta in E.
  match type of E with
  | context [Z.div_eucl ?a ?b] =>
      assert (H : 0 <= fst (Z.div_eucl a b));
      [apply div_eucl_nonneg; [|lia]|destruct (Z.div_eucl a b) as [q r]]
  end.
  - match goal with |- 0 <= match ?k with _ => _ end => destruct k end;
      [lia|apply Z.shiftl_nonneg; lia|lia].
  - cbn [fst] in H. injection E as <- _ _. exact H.
Qed.

Lemma shl_align_value (m : positive) (e e' : Z) :
  e' <= e -> Zpos (fst (shl_align m e e')) = Zpos m * 2 ^ (e - e').
Proof.
  intros H. unfold shl_align.
  destruct (e' - e) as [|d|d] eqn:E; [|lia|].
  - replace (e - e') with 0 by lia. cbn [fst]. change (2 ^ 0) with 1. lia.
  - cbn [fst]. replace (e - e') with (Zpos d) by lia.
    apply (iter_xO_value m d).
Qed.

(** ** Numbers at or below zero *)

Lemma leb_zero_cases (x : float) :
  F32.leb x F32.zero = true ->
  (exists s, x = S754_zero s) \/ x = S754_infinity true \/
  (exists m e, x = S754_finite true m e).
Proof.
  destruct x as [s|[]| |[] m e]; cbn; intros H; try discriminate H; eauto.
Qed.

Lemma ltb_zero_cases (d : float) :
  F32.ltb F32.zero d = true ->
  d = S754_infinity false \/ (exists m e, d = S754_finite false m e).
Proof.
  destruct d as [s|[]| |[] m e]; cbn; intros H; try discriminate H; eauto.
Qed.

Lemma signed_leb_zero (x : float) :
  match x with
  | S754_nan => False
  | S754_zero s | S754_infinity s | S754_finite s _ _ => s = true
  end ->
  F32.leb x F32.zero = true.
Proof.
  destruct x as [s|s| |s m e]; intros H; try contradiction; subst;
    reflexivity.
Qed.

(** A delta at or below zero over a positive duration, not both of them
    infinite, is a quotient at or below zero. *)
Lemma div_nonpositive (dt d : float) :
  F32.leb dt F32.zero = true ->
  F32.ltb F32.zero d = true ->
  (F32.is_finite dt || F32.is_finite d)%bool = true ->
  F32.leb (F32.div dt d) F32.zero = true.
Proof.
  intros Hdt Hd Hfin.
  destruct (leb_zero_cases dt Hdt) as [[s ->]|[->|(m & e & ->)]];
    destruct (ltb_zero_cases d Hd) as [->|(m' & e' & ->)];
    try discriminate Hfin; try reflexivity.
  apply signed_leb_zero.
  exact (SFdiv_sign true false m m' e e').
Qed.

(** Clamping a number at or below zero gives a zero, which no progress
    in [0,1] is under. *)
Lemma Clamp_nonpositive_leb (x a : float) :
  F32.leb x F32.zero = true ->
  F32.leb F32.zero a = true ->
  F32.leb (FMath.Clamp x F32.zero F32.one) a = true.
Proof.
  intros Hx Ha.
  destruct (leb_zero_cases x Hx) as [[s ->]|[->|(m & e & ->)]];
    exact Ha.
Qed.

Lemma eqb_leb (x y : float) : F32.eqb x y = true -> F32.leb x y = true.
Proof.
  unfold F32.eqb, F32.leb, SFeqb, SFleb.
  destruct (SFcompare x y) as [[]|]; intros H; try discriminate H;
    reflexivity.
Qed.

(** The order of two positive numbers: exponent before mantissa. *)
Lemma leb_positive (m1 m2 : positive) (e1 e2 : Z) :
  F32.leb (S754_finite false m1 e1) (S754_finite false m2 e2) = true <->
  e1 < e2 \/ (e1 = e2 /\ Zpos m1 <= Zpos m2).
Proof.
  unfold F32.leb, SFleb, SFcompare.
  change (PosDef.Pos.compare_cont Eq m1 m2) with (Pos.compare m1 m2).
  destruct (Z.compare_spec e1 e2) as [E|E|E].
  - destruct (Pos.compare_spec m1 m2) as [P|P|P]; split; intros H;
      try discriminate H; try reflexivity; lia.
  - split; [lia|reflexivity].
  - split; [discriminate|lia].
Qed.

Lemma ltb_positive (m1 m2 : positive) (e1 e2 : Z) :
  F32.ltb (S754_finite false m1 e1) (S754_finite false m2 e2) = true <->
  e1 < e2 \/ (e1 = e2 /\ Zpos m1 < Zpos m2).
Proof.
  unfold F32.ltb, SFltb, SFcompare.
  change (PosDef.Pos.compare_cont Eq m1 m2) with (Pos.compare m1 m2).
  destruct (Z.compare_spec e1 e2) as [E|E|E].
  - destruct (Pos.compare_spec m1 m2) as [P|P|P]; split; intros H;
      try discriminate H; try reflexivity; lia.
  - split; [lia|reflexivity].
  - split; [discriminate|lia].
Qed.

Lemma below_leb (r : float) (ma : positive) (ea : Z) :
  below r ma ea -> F32.leb r (S754_finite false ma ea) = true.
Proof.
  destruct r as [[]|s| |[] mr er]; cbn [below]; intros H;
    try contradiction; [reflexivity|].
  apply leb_positive. exact H.
Qed.

Lemma below_in_unit (r : float) (ma : positive) (ea : Z) :
  below r ma ea ->
  F32.ltb (S754_finite false ma ea) F32.one = true ->
  F32.in_unit r = true.
Proof.
  destruct r as [[]|s| |[] mr er]; cbn [below]; intros H Hlt;
    try contradiction; [reflexivity|].
  unfold F32.in_unit. apply andb_true_iff. split; [reflexivity|].
  unfold F32.one in *. apply ltb_positive in Hlt. apply leb_positive. lia.
Qed.

(** The sum of a positive number and one at or below zero is at or below
    zero itself, or a number not above the positive one: rounding never
    carries the sum past a representable number it started under. *)
Lemma add_nonpositive_below (ma : positive) (ea : Z) (q : float) :
  bounded 24 128 ma ea = true ->
  F32.leb q F32.zero = true ->
  let r := F32.add (S754_finite false ma ea) q in
  F32.leb r F32.zero = true \/ below r ma ea.
Proof.
  intros Hb Hq. cbv zeta.
  destruct (leb_zero_cases q Hq) as [[s ->]|[->|(mq & eq & ->)]].
  - right. change (F32.add (S754_finite false ma ea) (S754_zero s))
      with (S754_finite false ma ea).
    cbn [below]. right. split; [reflexivity|lia].
  - left. reflexivity.
  - unfold F32.add, SFadd. change F32.prec with 24. change F32.emax with 128.
    cbn [cond_Zopp].
    set (ez := Z.min ea eq).
    pose proof (shl_align_value ma ea ez ltac:(lia)) as HA.
    assert (Hpow : 0 < 2 ^ (ea - ez)) by (apply Z.pow_pos_nonneg; lia).
    set (A := fst (shl_align ma ea ez)) in *.
    set (Q := fst (shl_align mq eq ez)).
    unfold binary_normalize.
    destruct (Zpos A + - Zpos Q) as [|p|p] eqn:E.
    + left. reflexivity.
    + right. apply round_below; [exact Hb|lia|lia].
    + left. apply signed_leb_zero. apply binary_round_sign.
Qed.

(** A running progress in [0,1) that is added a number at or below zero
    and clamped is not advanced. *)
Lemma advanced_nonpositive (a q : float) :
  F32.valid a = true ->
  F32.in_unit a = true ->
  F32.ltb a F32.one = true ->
  F32.leb q F32.zero = true ->
  F32.leb (FMath.Clamp (F32.add a q) F32.zero F32.one) a = true.
Proof.
  intros Hv Hu Hlt Hq.
  pose proof (proj1 (proj1 (andb_true_iff _ _) Hu)) as H0.
  destruct a as [sa|sa| |sa ma ea]; try discriminate Hu.
  - apply Clamp_nonpositive_leb; [|exact H0].
    destruct (leb_zero_cases q Hq) as [[s ->]|[->|(mq & eq & ->)]];
      [destruct sa, s; reflexivity|reflexivity|reflexivity].
  - destruct sa; discriminate Hu.
  - destruct sa; [discriminate Hu|].
    destruct (add_nonpositive_below ma ea q Hv Hq) as [H|H].
    + apply Clamp_nonpositive_leb; [exact H|exact H0].
    + rewrite (Clamp_id _ (below_in_unit _ _ _ H Hlt)).
      apply below_leb. exact H.
Qed.

(** ** Ticks that bring no time *)

Lemma div_zero_positive (sg : bool) (d : float) :
  F32.ltb F32.zero d = true ->
  exists z : bool, F32.div (S754_zero sg) d = S754_zero z.
Proof.
  destruct d as [sd|sd| |sd md ed]; cbn; try discriminate; intros _.
  - exists (xorb sg sd). reflexivity.
  - exists (xorb sg sd). reflexivity.
Qed.

(** Adding a zero to a progress in [0,1] gives a number equal to it,
    again in [0,1]. *)
Lemma add_zero_unit (a : float) (z : bool) :
  F32.in_unit a = true ->
  F32.eqb (F32.add a (S754_zero z)) a = true /\
  F32.in_unit (F32.add a (S754_zero z)) = true.
Proof.
  intros Ha. destruct a as [sa|sa| |sa ma ea]; try discriminate Ha.
  - destruct sa, z; split; reflexivity.
  - destruct sa; discriminate Ha.
  - change (F32.add (S754_finite sa ma ea) (S754_zero z))
      with (S754_finite sa ma ea).
    split; [|exact Ha].
    unfold F32.eqb, SFeqb. now rewrite SFcompare_refl.
Qed.

(** C8, refuted as stated: half a second into the combat transition a tick
    of zero seconds moves energy from 0.7 to 0.79999995 (one unit in the
    last place under [0.8f]), and a tick of minus a
    quarter second takes the progress from 0.5 down to 0.25 and moves
    energy to 0.75. *)
Lemma Tick_nonpositive_delta_moves :
  let s := Tick (F32.lit 5 10) (SetCombat UStaticWavesMusicSubsystem) in
  let neg := F32.sub (F32.lit 0 1) (F32.lit 25 100) in
  TransitionAlpha s = F32.lit 5 10 /\
  Energy (CurrentContext s) = F32.lit 7 10 /\
  Energy (CurrentContext (Tick (F32.lit 0 1) s)) =
    S754_finite false 13421772 (-24) /\
  CurrentContext (Tick (F32.lit 0 1) s) <> CurrentContext s /\
  F32.ltb neg F32.zero = true /\
  TransitionAlpha (Tick neg s) = F32.lit 25 100 /\
  Energy (CurrentContext (Tick neg s)) = F32.lit 75 100 /\
  CurrentContext (Tick neg s) <> CurrentContext s.
Proof. vm_compute. repeat split; discriminate. Qed.

(** The one delta below zero that advances the progress: minus infinity
    over an infinite duration.  The quotient is NaN, which the clamp takes
    for its upper bound, so the progress goes from zero to one. *)
Example Tick_infinite_delta_over_infinite_duration :
  let s :=
    TransitionToContext Loud (S754_infinity false) UStaticWavesMusicSubsystem
  in
  TransitionDuration s = S754_infinity false /\
  TransitionAlpha s = F32.zero /\
  F32.leb (S754_infinity true) F32.zero = true /\
  TransitionAlpha (Tick (S754_infinity true) s) = F32.one.
Proof. vm_compute. repeat split. Qed.

(** C8.  A tick is defined for every delta, so none raises an error.  With
    the progress at or above one a tick of any delta, zero and negative
    included, changes nothing.  With a well-formed progress in [0,1) and a
    positive duration, a tick whose delta is zero or negative, the delta
    and the duration not both infinite, does not advance the progress: the
    progress it leaves is in [0,1] and at or below the one it found; the
    fields of the current context are interpolated again toward the target
    at the progress left, and target and duration stay.  With a delta of
    zero the progress keeps its value.  Whatever the delta, a running
    transition leaves a tick with its progress in [0,1]. *)
Theorem Tick_nonpositive_delta (s : State) :
  (forall dt : float,
     F32.leb F32.one (TransitionAlpha s) = true -> Tick dt s = s)
  /\
  (forall dt : float,
     F32.leb dt F32.zero = true ->
     (F32.is_finite dt || F32.is_finite (TransitionDuration s))%bool = true ->
     F32.valid (TransitionAlpha s) = true ->
     F32.in_unit (TransitionAlpha s) = true ->
     F32.ltb (TransitionAlpha s) F32.one = true ->
     F32.ltb F32.zero (TransitionDuration s) = true ->
     let s' := Tick dt s in
     F32.leb (TransitionAlpha s') (TransitionAlpha s) = true /\
     F32.in_unit (TransitionAlpha s') = true /\
     CurrentContext s' =
       LerpContext (CurrentContext s) (TargetContext s) (TransitionAlpha s') /\
     TargetContext s' = TargetContext s /\
     TransitionDuration s' = TransitionDuration s)
  /\
  (forall sg : bool,
     F32.in_unit (TransitionAlpha s) = true ->
     F32.ltb (TransitionAlpha s) F32.one = true ->
     F32.ltb F32.zero (TransitionDuration s) = true ->
     let s' := Tick (S754_zero sg) s in
     F32.eqb (TransitionAlpha s') (TransitionAlpha s) = true /\
     CurrentContext s' =
       LerpContext (CurrentContext s) (TargetContext s) (TransitionAlpha s') /\
     TargetContext s' = TargetContext s)
  /\
  (forall dt : float,
     F32.ltb (TransitionAlpha s) F32.one = true ->
     F32.in_unit (TransitionAlpha (Tick dt s)) = true).
Proof.
  split; [|split; [|split]].
  - intros dt H. apply Tick_idle. now apply leb_ltb_false.
  - intros dt Hdt Hfin Hv Hunit Hrun Hdur. cbv zeta.
    tick_runs Hrun. cbn.
    split; [|split; [apply advanced_in_unit|repeat split]].
    clamp_bounds. apply advanced_nonpositive; try assumption.
    now apply div_nonpositive.
  - intros sg Hunit Hrun Hdur. cbv zeta.
    tick_runs Hrun. cbn.
    destruct (div_zero_positive sg _ Hdur) as [z Hz].
    destruct (add_zero_unit _ z Hunit) as [Heq Hin].
    clamp_bounds. rewrite Hz, (Clamp_id _ Hin).
    repeat split. exact Heq.
  - intros dt Hrun. tick_runs Hrun. apply advanced_in_unit.
Qed.

(** C8 at concrete states: a zero delta at rest, and, half a second into
    the combat transition, a delta of minus a quarter second and a delta
    of zero. *)
Lemma Tick_nonpositive_delta_witness :
  let s := Tick (F32.lit 5 10) (SetCombat UStaticWavesMusicSubsystem) in
  let neg := F32.sub (F32.lit 0 1) (F32.lit 25 100) in
  F32.leb F32.one (TransitionAlpha UStaticWavesMusicSubsystem) = true /\
  Tick (F32.lit 0 1) UStaticWavesMusicSubsystem = UStaticWavesMusicSubsystem /\
  F32.leb neg F32.zero = true /\
  (F32.is_finite neg || F32.is_finite (TransitionDuration s))%bool = true /\
  F32.valid (TransitionAlpha s) = true /\
  F32.in_unit (TransitionAlpha s) = true /\
  F32.ltb (TransitionAlpha s) F32.one = true /\
  F32.ltb F32.zero (TransitionDuration s) = true /\
  F32.leb (TransitionAlpha (Tick neg s)) (TransitionAlpha s) = true /\
  F32.eqb (TransitionAlpha (Tick (S754_zero false) s)) (TransitionAlpha s)
    = true.
Proof.
  cbv zeta.
  split; [reflexivity|].
  split; [apply (proj1 (Tick_nonpositive_delta UStaticWavesMusicSubsystem));
          reflexivity|].
  do 6 (split; [vm_compute; reflexivity|]).
  split.
  - refine (proj1 (proj1 (proj2 (Tick_nonpositive_delta
                    (Tick (F32.lit 5 10)
                       (SetCombat UStaticWavesMusicSubsystem))))
             (F32.sub (F32.lit 0 1) (F32.lit 25 100)) _ _ _ _ _ _));
      vm_compute; reflexivity.
  - refine (proj1 (proj1 (proj2 (proj2 (Tick_nonpositive_delta
                    (Tick (F32.lit 5 10)
                       (SetCombat UStaticWavesMusicSubsystem)))))
             false _ _ _));
      vm_compute; reflexivity.
Defined.

(** ** Events *)

Lemma preset_starts (s : State) (C : FMusicContext) :
  starts_transition s (TransitionToContext C DefaultTransitionTime s)
    C F32.one.
Proof. repeat split. Qed.

(** A name that matches one literal matches no literal that differs from
    it beyond the case of its letters. *)
Lemma FName_eq_other (Name : FName) (a b : string) :
  FName_eq Name a = true ->
  String.eqb (Lowered a) (Lowered b) = false ->
  FName_eq Name b = false.
Proof.
  unfold FName_eq. intros Ha Hab. apply String.eqb_eq in Ha.
  now rewrite Ha.
Qed.

(** C5, refuted as stated: the name [COMBAT_START] is not the name
    [combat_start] letter for letter, yet it starts the one-second
    transition to the Combat preset and not the half-second adjustment of
    the tension: names match whatever the case of their letters. *)
Lemma PushMusicEvent_match_ignores_case :
  let s := PushMusicEvent "COMBAT_START"%string (F32.lit 75 100)
             UStaticWavesMusicSubsystem in
  "COMBAT_START"%string <> "combat_start"%string /\
  TargetContext s = CombatContext /\
  TransitionDuration s = F32.lit 1 1 /\
  Tension (TargetContext s) <> F32.lit 75 100 /\
  Energy (TargetContext s) <> Energy (CurrentContext s).
Proof. vm_compute. repeat split; discriminate. Qed.

(** C5.  [PushMusicEvent] compares the name with four literals in turn,
    whole name against whole name and ignoring the case of the letters:
    a name that matches [combat_start], [boss_enter], [puzzle_start] or
    [victory] starts a transition of one second to the Combat, Boss,
    Puzzle or Victory preset; a name that matches none of the four starts
    a transition of half a second whose target is the current context
    with the tension alone replaced by the intensity clamped into
    [0,1]. *)
Theorem PushMusicEvent_dispatch (s : State) (EventName : FName)
    (Intensity : float) :
  let s' := PushMusicEvent EventName Intensity s in
  (FName_eq EventName "combat_start" = true ->
   starts_transition s s'
     (mkContext (F32.lit 9 10) (F32.lit 8 10) (F32.lit 6 10) (F32.lit 7 10))
     (F32.lit 1 1)) /\
  (FName_eq EventName "boss_enter" = true ->
   starts_transition s s'
     (mkContext (F32.lit 1 1) (F32.lit 95 100) (F32.lit 8 10) (F32.lit 9 10))
     (F32.lit 1 1)) /\
  (FName_eq EventName "puzzle_start" = true ->
   starts_transition s s'
     (mkContext (F32.lit 4 10) (F32.lit 5 10) (F32.lit 3 10) (F32.lit 6 10))
     (F32.lit 1 1)) /\
  (FName_eq EventName "victory" = true ->
   starts_transition s s'
     (mkContext (F32.lit 7 10) (F32.lit 2 10) (F32.lit 1 10) (F32.lit 5 10))
     (F32.lit 1 1)) /\
  (FName_eq EventName "combat_start" = false ->
   FName_eq EventName "boss_enter" = false ->
   FName_eq EventName "puzzle_start" = false ->
   FName_eq EventName "victory" = false ->
   starts_transition s s'
     (mkContext (Energy (CurrentContext s))
        (FMath.Clamp Intensity F32.zero F32.one)
        (Darkness (CurrentContext s)) (Complexity (CurrentContext s)))
     (F32.lit 5 10) /\
   F32.in_unit (Tension (TargetContext s')) = true /\
   Energy (TargetContext s') = Energy (CurrentContext s) /\
   Darkness (TargetContext s') = Darkness (CurrentContext s) /\
   Complexity (TargetContext s') = Complexity (CurrentContext s)).
Proof.
  cbv zeta. unfold PushMusicEvent.
  split; [|split; [|split; [|split]]].
  - intros ->. apply preset_starts.
  - intros H.
    rewrite (FName_eq_other _ _ "combat_start" H eq_refl), H.
    apply preset_starts.
  - intros H.
    rewrite (FName_eq_other _ _ "combat_start" H eq_refl),
      (FName_eq_other _ _ "boss_enter" H eq_refl), H.
    apply preset_starts.
  - intros H.
    rewrite (FName_eq_other _ _ "combat_start" H eq_refl),
      (FName_eq_other _ _ "boss_enter" H eq_refl),
      (FName_eq_other _ _ "puzzle_start" H eq_refl), H.
    apply preset_starts.
  - intros -> -> -> ->.
    cbv zeta. rewrite TransitionToContext_stores. cbn.
    rewrite lit_zero, lit_one.
    repeat split. apply Clamp_in_unit.
Qed.

(** C5 at concrete inputs, pushed half a second into the combat
    transition: [combat_start], [Boss_Enter] in mixed case, and an
    unknown name with intensity [0.75f]. *)
Lemma PushMusicEvent_dispatch_witness :
  let s := Tick (F32.lit 5 10) (SetCombat UStaticWavesMusicSubsystem) in
  FName_eq "Boss_Enter"%string "boss_enter" = true /\
  FName_eq "unknown_event"%string "combat_start" = false /\
  TargetContext (PushMusicEvent "combat_start"%string (F32.lit 1 1) s)
    = CombatContext /\
  TargetContext (PushMusicEvent "Boss_Enter"%string (F32.lit 1 1) s)
    = BossContext /\
  TargetContext (PushMusicEvent "unknown_event"%string (F32.lit 75 100) s) =
    mkContext (F32.lit 7 10) (F32.lit 75 100) (F32.lit 55 100) (F32.lit 6 10)
  /\
  TargetContext s = CombatContext /\
  TransitionDuration (PushMusicEvent "unknown_event"%string (F32.lit 75 100) s) =
    F32.lit 5 10.
Proof.
  cbv zeta.
  pose proof (PushMusicEvent_dispatch
                (Tick (F32.lit 5 10) (SetCombat UStaticWavesMusicSubsystem))
                "combat_start"%string (F32.lit 1 1)) as Hc.
  pose proof (PushMusicEvent_dispatch
                (Tick (F32.lit 5 10) (SetCombat UStaticWavesMusicSubsystem))
                "Boss_Enter"%string (F32.lit 1 1)) as Hb.
  pose proof (PushMusicEvent_dispatch
                (Tick (F32.lit 5 10) (SetCombat UStaticWavesMusicSubsystem))
                "unknown_event"%string (F32.lit 75 100)) as Hu.
  cbv zeta in Hc, Hb, Hu.
  destruct Hc as (Hc & _). destruct (Hc eq_refl) as (Hct & _).
  destruct Hb as (_ & Hb & _). destruct (Hb eq_refl) as (Hbt & _).
  destruct Hu as (_ & _ & _ & _ & Hu).
  destruct (Hu eq_refl eq_refl eq_refl eq_refl) as ((Ht & Hd & _) & _).
  split; [reflexivity|]. split; [reflexivity|].
  split; [rewrite Hct; reflexivity|].
  split; [rewrite Hbt; reflexivity|].
  split; [rewrite Ht; vm_compute; reflexivity|].
  split; [vm_compute; reflexivity|exact Hd].
Defined.

(** ** The control channel *)

Lemma Tick_keeps_connection (dt : float) (s : State) :
  WebSocket (Tick dt s) = WebSocket s /\
  bIsConnected (Tick dt s) = bIsConnected s.
Proof.
  destruct (F32.ltb (TransitionAlpha s) F32.one) eqn:H.
  - tick_runs H. split; reflexivity.
  - rewrite (Tick_idle s dt H). split; reflexivity.
Qed.

(** The frames one tick adds: the new current context if the subsystem
    is connected and a transition is running, none otherwise. *)
Lemma Tick_frames (dt : float) (s : State) :
  frames (Trace (Tick dt s)) =
  frames (Trace s) ++
  (if Connected s && F32.ltb (TransitionAlpha s) F32.one
   then [ToJson (CurrentContext (Tick dt s))] else []).
Proof.
  destruct (F32.ltb (TransitionAlpha s) F32.one) eqn:H.
  - tick_runs H. cbn [Trace CurrentContext].
    rewrite frames_app, frames_push_events, andb_true_r. reflexivity.
  - rewrite (Tick_idle s dt H), andb_false_r, app_nil_r. reflexivity.
Qed.

Lemma Connected_Tick (dt : float) (s : State) :
  Connected (Tick dt s) = Connected s.
Proof.
  unfold Connected. destruct (Tick_keeps_connection dt s) as [-> ->].
  reflexivity.
Qed.

(** While not connected, no run of ticks sends anything or touches the
    connection. *)
Lemma Ticks_offline (deltas : list float) (s : State) :
  Connected s = false ->
  frames (Trace (Ticks deltas s)) = frames (Trace s) /\
  WebSocket (Ticks deltas s) = WebSocket s /\
  bIsConnected (Ticks deltas s) = bIsConnected s.
Proof.
  revert s. induction deltas as [|d deltas IH]; intros s Hs.
  - repeat split.
  - cbn [Ticks].
    destruct (IH (Tick d s)) as (Hf & Hw & Hb).
    { now rewrite Connected_Tick. }
    destruct (Tick_keeps_connection d s) as [Hw' Hb'].
    rewrite Hf, Hw, Hb, Hw', Hb', Tick_frames, Hs, app_nil_r.
    repeat split.
Qed.

(** Frames once sent stay in the trace, in order. *)
Lemma Ticks_extend (deltas : list float) (s : State) :
  exists later : list string,
    frames (Trace (Ticks deltas s)) = frames (Trace s) ++ later.
Proof.
  revert s. induction deltas as [|d deltas IH]; intros s.
  - exists []. now rewrite app_nil_r.
  - cbn [Ticks]. destruct (IH (Tick d s)) as [later Hl].
    rewrite Hl, Tick_frames, <- app_assoc. eexists. reflexivity.
Qed.

Lemma sent_on_events (t u : list Event) :
  sent_on (t ++ u) = sent_on t ++ sent_on u.
Proof.
  induction t as [|e t IH]; [reflexivity|].
  destruct e; cbn; rewrite IH; reflexivity.
Qed.

Lemma OnConnected_emits (s : State) (w : nat) :
  WebSocket s = Some w ->
  OnConnected s =
  mkState (Some w) (CurrentContext s) (TargetContext s)
    (TransitionAlpha s) (TransitionDuration s) true
    (ServerURL s) (Sockets s)
    (Trace s ++
     [UE_LOG Log "[StaticWaves] Connected successfully";
      SocketSend w (ToJson (CurrentContext s));
      UE_LOG Verbose ("[StaticWaves] Sent: " ++ ToJson (CurrentContext s))]).
Proof.
  intros Hw. unfold OnConnected. rewrite SendControlUpdate_emits.
  unfold push_events, emit, set_bIsConnected. cbn. rewrite Hw.
  rewrite <- app_assoc. reflexivity.
Qed.

(** C6, refuted as stated: not every open of a socket is followed by
    exactly one push that comes before the tick-driven ones.  With two
    sockets asked for in a row, the first open connects the subsystem;
    after a [Disconnect] the open of the other socket sets the flag again
    and pushes nothing, no socket being held.  And without the
    [Disconnect], the second open pushes once more on the socket held,
    after the ticks have sent their frames on it. *)
Lemma OnConnected_open_without_first_push :
  let q := F32.lit 25 100 in
  let s := run [DoConnect localhost; DoConnect localhost; GotConnected;
                DoDisconnect] UStaticWavesMusicSubsystem in
  let t := run [DoConnect localhost; DoConnect localhost; GotConnected;
                DoSetCombat; DoTick q; DoTick q]
             UStaticWavesMusicSubsystem in
  created (Trace s) = [0%nat; 1%nat] /\
  bIsConnected s = false /\
  bIsConnected (OnConnected s) = true /\
  frames (Trace (OnConnected s)) = frames (Trace s) /\
  frames (Trace (Ticks [q; q] (SetCombat (OnConnected s)))) =
    frames (Trace s) /\
  bIsConnected t = true /\
  sent_on (Trace t) = [1%nat; 1%nat; 1%nat] /\
  sent_on (Trace (OnConnected t)) = [1%nat; 1%nat; 1%nat; 1%nat].
Proof. vm_compute. repeat split. Qed.

(** C6.  An open always sets the flag.  If it finds the subsystem not
    connected and holding a socket, then whatever run of ticks went
    before sent nothing, [OnConnected] sends exactly one frame, the
    serialized current context of that moment, without any condition on
    it, and whatever any later run of ticks sends comes after that frame.
    An open that finds a socket held sends exactly one frame also when the
    subsystem was connected already; an open that finds no socket held
    sends nothing. *)
Theorem OnConnected_pushes_once_first
    (s : State) (before after : list float) :
  (forall w : nat,
     bIsConnected s = false ->
     WebSocket s = Some w ->
     let s1 := Ticks before s in
     let s2 := OnConnected s1 in
     frames (Trace s1) = frames (Trace s) /\
     bIsConnected s2 = true /\
     Trace s2 =
       Trace s1 ++
       [UE_LOG Log "[StaticWaves] Connected successfully";
        SocketSend w (ToJson (CurrentContext s1));
        UE_LOG Verbose ("[StaticWaves] Sent: " ++ ToJson (CurrentContext s1))]
     /\
     frames (Trace s2) = frames (Trace s) ++ [ToJson (CurrentContext s1)] /\
     exists later : list string,
       frames (Trace (Ticks after s2)) =
       frames (Trace s) ++ ToJson (CurrentContext s1) :: later)
  /\
  (forall w : nat,
     WebSocket s = Some w ->
     bIsConnected (OnConnected s) = true /\
     frames (Trace (OnConnected s)) =
       frames (Trace s) ++ [ToJson (CurrentContext s)] /\
     sent_on (Trace (OnConnected s)) = sent_on (Trace s) ++ [w])
  /\
  (WebSocket s = None ->
   bIsConnected (OnConnected s) = true /\
   Connected (OnConnected s) = false /\
   frames (Trace (OnConnected s)) = frames (Trace s)).
Proof.
  split; [|split].
  - intros w Hb Hw. cbv zeta.
    destruct (Ticks_offline before s) as (Hf & Hw1 & _).
    { unfold Connected. now rewrite Hb. }
    rewrite Hw in Hw1.
    assert (Hs2 : frames (Trace (OnConnected (Ticks before s))) =
                  frames (Trace s)
                  ++ [ToJson (CurrentContext (Ticks before s))]).
    { rewrite (OnConnected_emits _ w Hw1). cbn [Trace].
      rewrite frames_app, Hf. reflexivity. }
    split; [exact Hf|].
    split; [now rewrite (OnConnected_emits _ w Hw1)|].
    split; [now rewrite (OnConnected_emits _ w Hw1)|].
    split; [exact Hs2|].
    destruct (Ticks_extend after (OnConnected (Ticks before s))) as [later Hl].
    exists later. rewrite Hl, Hs2, <- app_assoc. reflexivity.
  - intros w Hw. rewrite (OnConnected_emits s w Hw).
    cbn [Trace bIsConnected]. rewrite frames_app, sent_on_events.
    repeat split.
  - intros Hw. unfold OnConnected. rewrite SendControlUpdate_emits.
    unfold push_events, Connected. cbn. rewrite Hw. cbn.
    rewrite !app_nil_r, frames_app, app_nil_r. repeat split.
Qed.

(** C6 at a concrete run: the combat transition is started and ticked
    while the socket is still connecting, the socket opens, and the
    transition is ticked to its end; and an open on the constructed
    subsystem, which holds no socket. *)
Lemma OnConnected_pushes_once_first_witness :
  let s := SetCombat (Connect localhost UStaticWavesMusicSubsystem) in
  let q := F32.lit 25 100 in
  bIsConnected s = false /\
  WebSocket s = Some 0%nat /\
  frames (Trace (Ticks [q; q] s)) = [] /\
  frames (Trace (OnConnected (Ticks [q; q] s))) =
    [JsonFormat "0.75" "0.69" "0.56" "0.62"] /\
  List.length (frames (Trace (Ticks [q; q] (OnConnected (Ticks [q; q] s))))) = 3%nat
  /\
  frames (Trace (OnConnected s)) = [JsonFormat "0.50" "0.50" "0.50" "0.50"] /\
  WebSocket UStaticWavesMusicSubsystem = None /\
  frames (Trace (OnConnected UStaticWavesMusicSubsystem)) = [].
Proof.
  cbv zeta. split; [reflexivity|]. split; [reflexivity|].
  destruct (OnConnected_pushes_once_first
              (SetCombat (Connect localhost UStaticWavesMusicSubsystem))
              [F32.lit 25 100; F32.lit 25 100]
              [F32.lit 25 100; F32.lit 25 100]) as (HA & HB & _).
  destruct (HA 0%nat eq_refl eq_refl) as (Hf & _ & _ & Hs & _).
  destruct (HB 0%nat eq_refl) as (_ & Hone & _).
  destruct (OnConnected_pushes_once_first UStaticWavesMusicSubsystem [] [])
    as (_ & _ & HC).
  destruct (HC eq_refl) as (_ & _ & Hnone).
  split; [rewrite Hf; reflexivity|].
  split; [rewrite Hs; vm_compute; reflexivity|].
  split; [vm_compute; reflexivity|].
  split; [rewrite Hone; vm_compute; reflexivity|].
  split; [reflexivity|]. rewrite Hnone. reflexivity.
Defined.

(** C7, refuted as stated: a connected subsystem is sent toward the
    context it is already in; the next tick leaves the current context as
    it was, bit for bit and so also on the wire, and still sends a frame.
    A tick also sends when the change is below the two decimals of the
    wire format: a hundred-second transition moves energy by less than a
    thousandth in a sixtieth of a second, and the frame repeats the one
    before. *)
Lemma Tick_sends_without_change :
  let s := TransitionToContext FMusicContext_default DefaultTransitionTime
             Online in
  let slow := TransitionToContext CombatContext (F32.lit 100 1) Online in
  let dt := F32.lit 16 1000 in
  Connected s = true /\
  CurrentContext (Tick dt s) = CurrentContext s /\
  frames (Trace (Tick dt s)) =
    frames (Trace s) ++ [ToJson (CurrentContext s)] /\
  CurrentContext (Tick dt slow) <> CurrentContext slow /\
  ToJson (CurrentContext (Tick dt slow)) = ToJson (CurrentContext slow) /\
  frames (Trace (Tick dt slow)) =
    frames (Trace slow) ++ [ToJson (CurrentContext slow)].
Proof. vm_compute. repeat split. discriminate. Qed.

(** C7.  A tick sends a frame exactly when the subsystem is connected and
    a transition is running as the tick begins ([TransitionAlpha < 1]);
    the frame is the serialized current context as the tick leaves it.
    So nothing is sent while not connected, and a tick with the progress
    at one neither sends nor changes the current context. *)
Theorem Tick_sends_iff_connected_and_running (s : State) (DeltaTime : float) :
  frames (Trace (Tick DeltaTime s)) =
    frames (Trace s) ++
    (if Connected s && F32.ltb (TransitionAlpha s) F32.one
     then [ToJson (CurrentContext (Tick DeltaTime s))] else [])
  /\
  (Connected s = false ->
   frames (Trace (Tick DeltaTime s)) = frames (Trace s))
  /\
  (F32.ltb (TransitionAlpha s) F32.one = false ->
   frames (Trace (Tick DeltaTime s)) = frames (Trace s) /\
   CurrentContext (Tick DeltaTime s) = CurrentContext s).
Proof.
  split; [apply Tick_frames|]. split.
  - intros H. rewrite Tick_frames, H, app_nil_r. reflexivity.
  - intros H. rewrite (Tick_idle s DeltaTime H). split; reflexivity.
Qed.

(** C7 at concrete states: a tick of the combat transition while the
    socket is still connecting, and a tick at rest while connected. *)
Lemma Tick_sends_iff_connected_and_running_witness :
  let s := SetCombat (Connect localhost UStaticWavesMusicSubsystem) in
  Connected s = false /\
  frames (Trace (Tick (F32.lit 25 100) s)) = [] /\
  F32.ltb (TransitionAlpha Online) F32.one = false /\
  frames (Trace (Tick (F32.lit 25 100) Online)) = frames (Trace Online) /\
  frames (Trace (Tick (F32.lit 25 100) (SetCombat Online))) =
    [JsonFormat "0.50" "0.50" "0.50" "0.50";
     JsonFormat "0.60" "0.57" "0.52" "0.55"].
Proof.
  cbv zeta.
  destruct (Tick_sends_iff_connected_and_running
              (SetCombat (Connect localhost UStaticWavesMusicSubsystem))
              (F32.lit 25 100)) as (_ & Hoff & _).
  destruct (Tick_sends_iff_connected_and_running Online (F32.lit 25 100))
    as (_ & _ & Hidle).
  destruct (Tick_sends_iff_connected_and_running (SetCombat Online)
              (F32.lit 25 100)) as (Hrun & _).
  split; [reflexivity|].
  split; [rewrite (Hoff eq_refl); reflexivity|].
  split; [reflexivity|].
  split; [exact (proj1 (Hidle eq_refl))|].
  rewrite Hrun. vm_compute. reflexivity.
Defined.

(** ** The connection *)

(** C9, refuted as stated: after [Connect] on a fresh subsystem the first
    socket is connecting and the flag is still clear.  A second [Connect]
    asks for a second socket and drops the handle on the first;
    [Disconnect] returns at once, closes nothing and keeps the socket, and
    the connection can still come up afterwards. *)
Lemma Connecting_is_not_guarded :
  let s := Connect localhost UStaticWavesMusicSubsystem in
  bIsConnected s = false /\
  created (Trace s) = [0%nat] /\
  created (Trace (Connect localhost s)) = [0%nat; 1%nat] /\
  WebSocket (Connect localhost s) = Some 1%nat /\
  Disconnect s = s /\
  closed (Trace (Disconnect s)) = [] /\
  WebSocket (Disconnect s) = Some 0%nat /\
  bIsConnected (OnConnected (Disconnect s)) = true.
Proof. vm_compute. repeat split. Qed.

(** C9.  With the connected flag set, [Connect] only logs a warning: no
    socket is asked for and the state is otherwise as before, and
    [Disconnect] closes the socket it holds, lets go of it and clears the
    flag.  With the flag clear [Disconnect] changes nothing, so it leaves
    the flag clear from every state and a second [Disconnect] in a row
    does nothing more. *)
Theorem Connect_Disconnect_connected (s : State) (url : string) :
  (bIsConnected s = true ->
   Connect url s = emit AlreadyConnected s /\
   created (Trace (Connect url s)) = created (Trace s) /\
   WebSocket (Connect url s) = WebSocket s)
  /\
  (forall w : nat,
     bIsConnected s = true -> WebSocket s = Some w ->
     WebSocket (Disconnect s) = None /\
     Trace (Disconnect s) =
       Trace s ++ [SocketClose w; UE_LOG Log "[StaticWaves] Disconnected"])
  /\
  (bIsConnected s = false -> Disconnect s = s)
  /\
  bIsConnected (Disconnect s) = false
  /\
  Disconnect (Disconnect s) = Disconnect s.
Proof.
  assert (Hoff : forall t : State, bIsConnected t = false -> Disconnect t = t).
  { intros t Ht. unfold Disconnect. rewrite Ht. reflexivity. }
  assert (Hflag : bIsConnected (Disconnect s) = false).
  { unfold Disconnect. destruct (bIsConnected s) eqn:Hb; cbn; [|exact Hb].
    reflexivity. }
  split; [|split; [|split; [|split]]].
  - intros Hb. unfold Connect. rewrite Hb.
    assert (Hc : forall t u, created (t ++ [UE_LOG Warning u]) = created t).
    { intros t u. induction t as [|e t IH]; [reflexivity|].
      destruct e; cbn; now rewrite IH. }
    repeat split. apply Hc.
  - intros w Hb Hw. unfold Disconnect. rewrite Hb, Hw. cbn.
    rewrite <- app_assoc. split; reflexivity.
  - apply Hoff.
  - exact Hflag.
  - apply Hoff, Hflag.
Qed.

(** C9 at a concrete state: the subsystem with its first connection
    open. *)
Lemma Connect_Disconnect_connected_witness :
  bIsConnected Online = true /\
  WebSocket Online = Some 0%nat /\
  created (Trace (Connect localhost Online)) = [0%nat] /\
  closed (Trace (Disconnect Online)) = [0%nat] /\
  Disconnect (Disconnect Online) = Disconnect Online /\
  Disconnect UStaticWavesMusicSubsystem = UStaticWavesMusicSubsystem.
Proof.
  destruct (Connect_Disconnect_connected Online localhost)
    as (Hc & Hd & _ & _ & Hi).
  destruct (Hc eq_refl) as (_ & Hcr & _).
  destruct (Hd 0%nat eq_refl eq_refl) as (_ & Htr).
  destruct (Connect_Disconnect_connected UStaticWavesMusicSubsystem localhost)
    as (_ & _ & Hoff & _).
  split; [reflexivity|]. split; [reflexivity|].
  split; [rewrite Hcr; reflexivity|].
  split; [rewrite Htr; reflexivity|].
  split; [exact Hi|exact (Hoff eq_refl)].
Defined.

(** * Runs of calls *)

(** ** What traces are made of *)

Lemma closed_app (t u : list Event) : closed (t ++ u) = closed t ++ closed u.
Proof.
  induction t as [|e t IH]; [reflexivity|].
  destruct e; cbn; rewrite IH; reflexivity.
Qed.

Lemma created_app (t u : list Event) :
  created (t ++ u) = created t ++ created u.
Proof.
  induction t as [|e t IH]; [reflexivity|].
  destruct e; cbn; rewrite IH; reflexivity.
Qed.

Lemma sent_on_app (t u : list Event) :
  sent_on (t ++ u) = sent_on t ++ sent_on u.
Proof. apply sent_on_events. Qed.

Lemma last_url_app (t u : list Event) :
  last_url (t ++ u) =
  match last_url u with Some v => Some v | None => last_url t end.
Proof.
  induction t as [|e t IH]; cbn.
  - destruct (last_url u); reflexivity.
  - destruct e; cbn; rewrite ?IH; try reflexivity.
    destruct (last_url u), (last_url t); reflexivity.
Qed.

Lemma hushed_app (t u : list Event) :
  hushed (t ++ u) =
  hushed t && hushed u
  && forallb (fun w => negb (existsb (Nat.eqb w) (sent_on u))) (closed t).
Proof.
  induction t as [|e t IH]; cbn.
  - now rewrite andb_true_r.
  - destruct e; cbn; rewrite ?IH; try reflexivity.
    rewrite sent_on_app, existsb_app, negb_orb.
    destruct (existsb (Nat.eqb id) (sent_on t)); cbn; [reflexivity|].
    destruct (existsb (Nat.eqb id) (sent_on u)); cbn;
      now rewrite ?andb_false_r, ?andb_true_r.
Qed.

Lemma push_events_quiet (s : State) :
  closed (push_events s) = [] /\ created (push_events s) = [] /\
  last_url (push_events s) = None /\ hushed (push_events s) = true /\
  sent_on (push_events s) =
    match WebSocket s with
    | Some w => if bIsConnected s then [w] else []
    | None => []
    end.
Proof.
  unfold push_events. destruct (WebSocket s), (bIsConnected s); repeat split.
Qed.

(** ** What one call does *)

(** A call on the music side leaves the connection alone, and either
    leaves trace and current context alone too or ends in one push of the
    state it leaves. *)
Lemma musical_effect (c : Call) (s : State) :
  musical c = true ->
  WebSocket (perform c s) = WebSocket s /\
  bIsConnected (perform c s) = bIsConnected s /\
  Sockets (perform c s) = Sockets s /\
  ServerURL (perform c s) = ServerURL s /\
  ((Trace (perform c s) = Trace s /\
    CurrentContext (perform c s) = CurrentContext s) \/
   Trace (perform c s) = Trace s ++ push_events (perform c s)).
Proof.
  destruct c; try discriminate; intros _; cbn [perform].
  - unfold SetMusicContext. rewrite SendControlUpdate_emits.
    repeat split. right. reflexivity.
  - repeat split. left. split; reflexivity.
  - repeat split. left. split; reflexivity.
  - repeat split. left. split; reflexivity.
  - repeat split. left. split; reflexivity.
  - repeat split. left. split; reflexivity.
  - repeat split. left. split; reflexivity.
  - unfold PushMusicEvent.
    destruct (FName_eq EventName "combat_start");
      [repeat split; left; split; reflexivity|].
    destruct (FName_eq EventName "boss_enter");
      [repeat split; left; split; reflexivity|].
    destruct (FName_eq EventName "puzzle_start");
      [repeat split; left; split; reflexivity|].
    destruct (FName_eq EventName "victory");
      repeat split; left; split; reflexivity.
  - destruct (F32.ltb (TransitionAlpha s) F32.one) eqn:H.
    + tick_runs H. repeat split. right. reflexivity.
    + rewrite (Tick_idle s DeltaTime H). repeat split. left. split; reflexivity.
Qed.

(** A call that starts a transition touches neither the trace nor the
    current context. *)
Lemma starts_effect (c : Call) (s : State) :
  starts c = true ->
  Trace (perform c s) = Trace s /\
  CurrentContext (perform c s) = CurrentContext s /\
  TransitionAlpha (perform c s) = F32.zero.
Proof.
  destruct c; try discriminate; intros _; cbn [perform];
    try (repeat split; fail).
  unfold PushMusicEvent.
  destruct (FName_eq EventName "combat_start"); [repeat split|].
  destruct (FName_eq EventName "boss_enter"); [repeat split|].
  destruct (FName_eq EventName "puzzle_start"); [repeat split|].
  destruct (FName_eq EventName "victory"); repeat split.
Qed.

(** Every other call leaves the music alone. *)
Lemma unmusical_effect (c : Call) (s : State) :
  musical c = false -> Music (perform c s) = Music s.
Proof.
  destruct c; try discriminate; intros _; cbn [perform]; try reflexivity.
  - unfold Deinitialize, Disconnect.
    destruct (bIsConnected s), (WebSocket s); reflexivity.
  - unfold Connect. destruct (bIsConnected s); reflexivity.
  - unfold Disconnect.
    destruct (bIsConnected s), (WebSocket s); reflexivity.
  - unfold OnConnected. rewrite SendControlUpdate_emits. reflexivity.
Qed.

(** ** The transition engine over runs *)

Lemma perform_progress (c : Call) (s : State) :
  F32.in_unit (TransitionAlpha s) = true ->
  F32.in_unit (TransitionAlpha (perform c s)) = true.
Proof.
  intros H. destruct (musical c) eqn:Hm.
  - destruct (starts c) eqn:Hs.
    + destruct (starts_effect c s Hs) as (_ & _ & ->). reflexivity.
    + destruct c; try discriminate; cbn [perform].
      * destruct (SetMusicContext_stores Context s) as (_ & _ & ->).
        reflexivity.
      * destruct (F32.ltb (TransitionAlpha s) F32.one) eqn:Hr.
        -- tick_runs Hr. apply advanced_in_unit.
        -- now rewrite (Tick_idle s DeltaTime Hr).
  - pose proof (unmusical_effect c s Hm) as E. unfold Music in E.
    injection E as _ _ Ha _. now rewrite Ha.
Qed.

(** X1.  Whatever is called, in whatever order and with whatever
    arguments (NaN, infinities and negative deltas included), a progress
    that lies in [0,1] still lies in [0,1] afterwards; the constructed
    subsystem starts with it at one. *)
Theorem progress_stays_in_unit (cs : list Call) (s : State) :
  F32.in_unit (TransitionAlpha s) = true ->
  F32.in_unit (TransitionAlpha (run cs s)) = true.
Proof.
  revert s. induction cs as [|c cs IH]; intros s H; [exact H|].
  cbn [run]. apply IH. now apply perform_progress.
Qed.

(** X1 at a concrete run: a transition started with a NaN duration and
    ticked with NaN, an infinite and a negative delta. *)
Lemma progress_stays_in_unit_witness :
  let cs := [DoTransitionToContext Loud S754_nan; DoTick S754_nan;
             DoSetCombat; DoTick (S754_infinity true);
             DoTick (F32.sub (F32.lit 0 1) (F32.lit 3 1))] in
  F32.in_unit (TransitionAlpha UStaticWavesMusicSubsystem) = true /\
  F32.in_unit (TransitionAlpha (run cs UStaticWavesMusicSubsystem)) = true.
Proof.
  cbv zeta. split; [reflexivity|].
  apply progress_stays_in_unit. reflexivity.
Defined.

Lemma perform_duration (c : Call) (s : State) :
  timed c = true ->
  F32.leb (F32.lit 1 10) (TransitionDuration s) = true ->
  F32.leb (F32.lit 1 10) (TransitionDuration (perform c s)) = true.
Proof.
  intros Ht H. destruct (musical c) eqn:Hm.
  - destruct c; try discriminate; cbn [perform]; try reflexivity.
    + unfold SetMusicContext. rewrite SendControlUpdate_emits. exact H.
    + rewrite TransitionToContext_stores. cbn [TransitionDuration].
      apply Max_floor. cbn in Ht. now destruct (F32.is_nan TransitionTime).
    + unfold PushMusicEvent.
      destruct (FName_eq EventName "combat_start"); [reflexivity|].
      destruct (FName_eq EventName "boss_enter"); [reflexivity|].
      destruct (FName_eq EventName "puzzle_start"); [reflexivity|].
      destruct (FName_eq EventName "victory"); reflexivity.
    + destruct (F32.ltb (TransitionAlpha s) F32.one) eqn:Hr.
      * tick_runs Hr. exact H.
      * now rewrite (Tick_idle s DeltaTime Hr).
  - pose proof (unmusical_effect c s Hm) as E. unfold Music in E.
    injection E as _ _ _ Hd. now rewrite Hd.
Qed.

(** X2.  As long as no call passes NaN as a transition time, a duration
    of at least a tenth of a second stays at least a tenth of a second
    through every run of calls: zero, negative and tiny transition times
    are floored, so the division in [Tick] is never by zero.  The
    constructed subsystem starts with one second. *)
Theorem duration_stays_floored (cs : list Call) (s : State) :
  forallb timed cs = true ->
  F32.leb (F32.lit 1 10) (TransitionDuration s) = true ->
  F32.leb (F32.lit 1 10) (TransitionDuration (run cs s)) = true /\
  F32.ltb F32.zero (TransitionDuration (run cs s)) = true.
Proof.
  revert s. induction cs as [|c cs IH]; intros s Ht H.
  - split; [exact H|]. cbn [run].
    destruct (TransitionDuration s) as [sd|sd| |sd md ed];
      try discriminate H; destruct sd; try discriminate H; reflexivity.
  - cbn [run]. cbn in Ht. apply andb_true_iff in Ht as [Hc Ht].
    apply IH; [exact Ht|]. now apply perform_duration.
Qed.

(** X2 at a concrete run: transition times of zero, minus one and minus
    infinity. *)
Lemma duration_stays_floored_witness :
  let cs := [DoTransitionToContext CombatContext (F32.lit 0 1);
             DoTick (F32.lit 1 10);
             DoTransitionToContext BossContext
               (F32.sub (F32.lit 0 1) (F32.lit 1 1));
             DoTransitionToContext PuzzleContext (S754_infinity true)] in
  forallb timed cs = true /\
  F32.leb (F32.lit 1 10) (TransitionDuration UStaticWavesMusicSubsystem)
    = true /\
  TransitionDuration (run cs UStaticWavesMusicSubsystem) = F32.lit 1 10 /\
  F32.ltb F32.zero (TransitionDuration (run cs UStaticWavesMusicSubsystem))
    = true.
Proof.
  cbv zeta. split; [reflexivity|]. split; [reflexivity|].
  split; [reflexivity|].
  apply duration_stays_floored; reflexivity.
Defined.

(** ** Music and connection do not interfere *)

Lemma Music_eq (s1 s2 : State) :
  Music s1 = Music s2 ->
  CurrentContext s1 = CurrentContext s2 /\
  TargetContext s1 = TargetContext s2 /\
  TransitionAlpha s1 = TransitionAlpha s2 /\
  TransitionDuration s1 = TransitionDuration s2.
Proof. unfold Music. intros E. injection E as Hc Ht Ha Hd. auto. Qed.

Lemma perform_Music (c : Call) (s1 s2 : State) :
  Music s1 = Music s2 -> Music (perform c s1) = Music (perform c s2).
Proof.
  intros E. destruct (musical c) eqn:Hm.
  - destruct (Music_eq _ _ E) as (Hc & Ht & Ha & Hd).
    destruct c; try discriminate; cbn [perform].
    + unfold SetMusicContext. rewrite !SendControlUpdate_emits.
      unfold Music. cbn. now rewrite Hd.
    + unfold Music. cbn. now rewrite Hc.
    + unfold Music. cbn. now rewrite Hc.
    + unfold Music. cbn. now rewrite Hc.
    + unfold Music. cbn. now rewrite Hc.
    + unfold Music. cbn. now rewrite Hc.
    + unfold Music. cbn. now rewrite Hc.
    + unfold PushMusicEvent, Music.
      destruct (FName_eq EventName "combat_start"); [cbn; now rewrite Hc|].
      destruct (FName_eq EventName "boss_enter"); [cbn; now rewrite Hc|].
      destruct (FName_eq EventName "puzzle_start"); [cbn; now rewrite Hc|].
      destruct (FName_eq EventName "victory"); cbn; now rewrite Hc.
    + destruct (F32.ltb (TransitionAlpha s1) F32.one) eqn:Hr.
      * assert (Hr2 : F32.ltb (TransitionAlpha s2) F32.one = true)
          by now rewrite <- Ha.
        rewrite (Tick_running s1 _ Hr), (Tick_running s2 _ Hr2). cbv zeta.
        rewrite !SendControlUpdate_emits. unfold Music. cbn.
        now rewrite Hc, Ht, Ha, Hd.
      * assert (Hr2 : F32.ltb (TransitionAlpha s2) F32.one = false)
          by now rewrite <- Ha.
        now rewrite (Tick_idle s1 _ Hr), (Tick_idle s2 _ Hr2).
  - now rewrite !(unmusical_effect _ _ Hm).
Qed.

(** X3.  The music after a run of calls depends on the music before it
    and on nothing else: two subsystems that agree on contexts, progress
    and duration agree on them after the same run, whatever their
    connection, socket and trace.  And only the setters and the tick move
    the music: dropping [Connect], [Disconnect], [Initialize],
    [Deinitialize] and every callback from a run leaves the music it ends
    with the same, so losing and regaining the connection never disturbs a
    transition. *)
Theorem music_ignores_connection (cs : list Call) (s1 s2 : State) :
  Music s1 = Music s2 ->
  Music (run cs s1) = Music (run cs s2) /\
  Music (run cs s1) = Music (run (filter musical cs) s2).
Proof.
  revert s1 s2. induction cs as [|c cs IH]; intros s1 s2 E.
  - split; exact E.
  - cbn [run filter]. split.
    + apply IH. now apply perform_Music.
    + destruct (musical c) eqn:Hm.
      * cbn [run]. apply IH. now apply perform_Music.
      * apply IH. now rewrite (unmusical_effect _ _ Hm).
Qed.

(** X3 at a concrete run: the combat transition ticked to its end while
    the connection comes up, fails and is closed. *)
Lemma music_ignores_connection_witness :
  let cs := [DoConnect localhost; DoSetCombat; DoTick (F32.lit 5 10);
             GotConnected; GotConnectionError "reset"; DoTick (F32.lit 5 10);
             GotClosed 1006 "gone" false; DoDisconnect] in
  Music Online = Music UStaticWavesMusicSubsystem /\
  CurrentContext (run cs Online) = CombatContext /\
  Music (run cs Online) =
    Music (run [DoSetCombat; DoTick (F32.lit 5 10); DoTick (F32.lit 5 10)]
             UStaticWavesMusicSubsystem).
Proof.
  cbv zeta. split; [reflexivity|].
  destruct (music_ignores_connection
              [DoConnect localhost; DoSetCombat; DoTick (F32.lit 5 10);
               GotConnected; GotConnectionError "reset";
               DoTick (F32.lit 5 10); GotClosed 1006 "gone" false;
               DoDisconnect]
              Online UStaticWavesMusicSubsystem eq_refl) as [_ H].
  split; [vm_compute; reflexivity|exact H].
Defined.

(** ** The control channel over runs *)

Lemma Connected_musical (c : Call) (s : State) :
  musical c = true -> Connected (perform c s) = Connected s.
Proof.
  intros Hm. destruct (musical_effect c s Hm) as (Hw & Hb & _).
  unfold Connected. now rewrite Hw, Hb.
Qed.

Lemma frames_push_offline (s : State) :
  Connected s = false -> frames (push_events s) = [].
Proof. intros H. now rewrite frames_push_events, H. Qed.

(** X4.  A run made only of setters, presets, events and ticks never asks
    for a socket, never closes one and leaves flag and socket handle as
    they were; and if the subsystem is not connected when the run begins,
    the run sends no frame at all. *)
Theorem music_calls_keep_to_the_music (cs : list Call) (s : State) :
  forallb musical cs = true ->
  WebSocket (run cs s) = WebSocket s /\
  bIsConnected (run cs s) = bIsConnected s /\
  created (Trace (run cs s)) = created (Trace s) /\
  closed (Trace (run cs s)) = closed (Trace s) /\
  (Connected s = false -> frames (Trace (run cs s)) = frames (Trace s)).
Proof.
  revert s. induction cs as [|c cs IH]; intros s Hcs.
  - repeat split.
  - cbn in Hcs. apply andb_true_iff in Hcs as [Hc Hcs]. cbn [run].
    destruct (IH (perform c s) Hcs) as (Hw & Hb & Hcr & Hcl & Hf).
    destruct (musical_effect c s Hc) as (Hw' & Hb' & _ & _ & Ht).
    rewrite Hw, Hb, Hcr, Hcl, Hw', Hb'.
    destruct (push_events_quiet (perform c s)) as (Pcl & Pcr & _).
    destruct Ht as [[Ht _]|Ht]; rewrite Ht.
    + repeat split. intros Hoff. rewrite Hf, Ht; [reflexivity|].
      now rewrite Connected_musical.
    + rewrite created_app, closed_app, Pcl, Pcr, !app_nil_r.
      repeat split. intros Hoff.
      assert (Hoff' : Connected (perform c s) = false)
        by now rewrite Connected_musical.
      rewrite (Hf Hoff'), Ht, frames_app, (frames_push_offline _ Hoff').
      now rewrite app_nil_r.
Qed.

(** X4 at a concrete run, made while the first socket is still
    connecting. *)
Lemma music_calls_keep_to_the_music_witness :
  let s := Connect localhost UStaticWavesMusicSubsystem in
  let cs := [DoSetMusicContext Loud; DoSetBoss; DoTick (F32.lit 5 10);
             DoPushMusicEvent "alarm"%string (F32.lit 3 1);
             DoTick (F32.lit 5 10)] in
  Connected s = false /\
  frames (Trace (run cs s)) = [] /\
  created (Trace (run cs s)) = [0%nat] /\
  closed (Trace (run cs s)) = [].
Proof.
  cbv zeta.
  destruct (music_calls_keep_to_the_music
              [DoSetMusicContext Loud; DoSetBoss; DoTick (F32.lit 5 10);
               DoPushMusicEvent "alarm"%string (F32.lit 3 1);
               DoTick (F32.lit 5 10)]
              (Connect localhost UStaticWavesMusicSubsystem) eq_refl)
    as (_ & _ & Hcr & Hcl & Hf).
  split; [reflexivity|].
  split; [rewrite (Hf eq_refl); reflexivity|].
  split; [rewrite Hcr; reflexivity|rewrite Hcl; reflexivity].
Defined.

(** X5.  Of the calls that set a context only [SetMusicContext] sends:
    it sends exactly one frame, the serialized new context, when
    connected and none otherwise.  [TransitionToContext], the presets and
    [PushMusicEvent] leave the trace as it is: the peer hears of a new
    target only through the ticks that follow. *)
Theorem only_SetMusicContext_sends (s : State) (Context : FMusicContext)
    (c : Call) :
  frames (Trace (SetMusicContext Context s)) =
    frames (Trace s) ++ (if Connected s then [ToJson Context] else []) /\
  (starts c = true -> Trace (perform c s) = Trace s).
Proof.
  split.
  - unfold SetMusicContext. rewrite SendControlUpdate_emits. cbn [Trace].
    rewrite frames_app, frames_push_events. reflexivity.
  - intros Hs. now destruct (starts_effect c s Hs).
Qed.

(** X5 at a concrete state, connected. *)
Lemma only_SetMusicContext_sends_witness :
  frames (Trace (SetMusicContext VictoryContext Online)) =
    [JsonFormat "0.50" "0.50" "0.50" "0.50";
     JsonFormat "0.70" "0.20" "0.10" "0.50"] /\
  Trace (PushMusicEvent "victory"%string (F32.lit 1 1) Online) = Trace Online.
Proof.
  destruct (only_SetMusicContext_sends Online VictoryContext
              (DoPushMusicEvent "victory"%string (F32.lit 1 1))) as [Hf Ht].
  split; [rewrite Hf; vm_compute; reflexivity|exact (Ht eq_refl)].
Defined.

(** ** The transport over runs *)

Lemma push_events_held (s : State) (w : nat) :
  In w (sent_on (push_events s)) -> WebSocket s = Some w.
Proof.
  unfold push_events. destruct (WebSocket s) as [v|]; [|intros []].
  destruct (bIsConnected s); [|intros []].
  cbn. intros [->|[]]. reflexivity.
Qed.

(** Every call is quiet, closes the socket held, or opens a fresh one. *)
Lemma perform_Effect (c : Call) (s : State) : Effect s (perform c s).
Proof.
  destruct (musical c) eqn:Hm.
  - destruct (musical_effect c s Hm) as (Hw & _ & Hn & Hu & Ht).
    destruct (push_events_quiet (perform c s)) as (Pcl & Pcr & _).
    destruct Ht as [[Ht _]|Ht].
    + apply Quiet with (u := []); auto; [now rewrite app_nil_r|intros w []].
    + apply Quiet with (u := push_events (perform c s)); auto.
      intros w Hin. rewrite <- Hw. now apply push_events_held.
  - destruct c; try discriminate; cbn [perform].
    + eapply Quiet with (u := [_]); try reflexivity. intros w [].
    + unfold Deinitialize, Disconnect.
      destruct (bIsConnected s) eqn:Hb; cbn [negb].
      * destruct (WebSocket s) as [w|] eqn:Hw.
        -- apply Closes with (w := w); auto.
           unfold emit, set_bIsConnected, set_WebSocket. cbn.
           now rewrite <- app_assoc.
        -- eapply Quiet with (u := [_]); try reflexivity; auto.
           intros w [].
      * apply Quiet with (u := []); auto; [now rewrite app_nil_r|intros w []].
    + unfold Connect. destruct (bIsConnected s) eqn:Hb.
      * eapply Quiet with (u := [_]); try reflexivity. intros w [].
      * apply Opens with (url := InServerURL); try reflexivity.
        unfold emit, set_WebSocket, set_Sockets, set_ServerURL. cbn.
        now rewrite <- !app_assoc.
    + unfold Disconnect.
      destruct (bIsConnected s) eqn:Hb; cbn [negb].
      * destruct (WebSocket s) as [w|] eqn:Hw.
        -- apply Closes with (w := w); auto.
           unfold emit, set_bIsConnected, set_WebSocket. cbn.
           now rewrite <- app_assoc.
        -- eapply Quiet with (u := [_]); try reflexivity; auto.
           intros w [].
      * apply Quiet with (u := []); auto; [now rewrite app_nil_r|intros w []].
    + unfold OnConnected. rewrite SendControlUpdate_emits.
      set (s1 := emit _ (set_bIsConnected true s)).
      destruct (push_events_quiet s1) as (Pcl & Pcr & _).
      apply Quiet with (u := UE_LOG Log "[StaticWaves] Connected successfully"
                               :: push_events s1); auto.
      * cbn [Trace]. subst s1. unfold emit. cbn [Trace].
        now rewrite <- app_assoc.
      * intros w Hin. cbn in Hin.
        now apply (push_events_held s1 w).
    + eapply Quiet with (u := [_]); try reflexivity. intros w [].
    + eapply Quiet with (u := [_]); try reflexivity. intros w [].
    + eapply Quiet with (u := [_]); try reflexivity. intros w [].
    + eapply Quiet with (u := [_]); try reflexivity. intros w [].
Qed.

Lemma no_close_hushed (u : list Event) : closed u = [] -> hushed u = true.
Proof.
  induction u as [|e u IH]; [reflexivity|].
  destruct e; cbn; auto. discriminate.
Qed.

Lemma no_create_last_url (u : list Event) :
  created u = [] -> last_url u = None.
Proof.
  induction u as [|e u IH]; [reflexivity|].
  destruct e; cbn; auto. discriminate.
Qed.

Lemma never_sent (l : list nat) (u : list nat) :
  (forall w, In w l -> ~ In w u) ->
  forallb (fun w => negb (existsb (Nat.eqb w) u)) l = true.
Proof.
  intros H. apply forallb_forall. intros w Hw.
  destruct (existsb (Nat.eqb w) u) eqn:E; [|reflexivity].
  apply existsb_exists in E as (v & Hv & Hwv).
  apply Nat.eqb_eq in Hwv. subst v. now destruct (H w Hw).
Qed.

Lemma Effect_Disciplined (s s' : State) :
  Effect s s' -> Disciplined s -> Disciplined s'.
Proof.
  intros E (Hh & Hnd & Hcr & Hcl & Hse & Hws).
  destruct E as [u Ht Ucl Ucr Use Hw Hn _|w Hw Ht Hw' Hn _|url Ht Hw' Hn _];
    unfold Disciplined; rewrite Ht, Hn.
  - rewrite hushed_app, closed_app, created_app, sent_on_app, Ucl, Ucr,
      !app_nil_r, Hh, (no_close_hushed u Ucl), Hw.
    repeat split; auto.
    + apply never_sent. intros w Hc Hs.
      destruct (Hws w (Use w Hs)) as [_ Hnot]. now apply Hnot.
    + intros w Hin. apply in_app_or in Hin as [Hin|Hin]; auto.
      now apply (Hws w), Use.
    + now apply Hws.
    + now apply Hws.
  - rewrite hushed_app, closed_app, created_app, sent_on_app, Hh, Hw'.
    cbn [closed created sent_on hushed existsb negb andb].
    rewrite !app_nil_r. destruct (Hws w Hw) as [Hlt Hnot].
    repeat split; auto.
    + apply forallb_forall. reflexivity.
    + apply NoDup_app; auto.
      * repeat constructor. intros [].
      * intros v Hv [<-|[]]. now apply Hnot.
    + intros v Hin. apply in_app_or in Hin as [Hin|[<-|[]]]; auto.
    + discriminate.
    + discriminate.
  - rewrite hushed_app, closed_app, created_app, sent_on_app, Hh, Hw', Hcr.
    cbn [closed created sent_on hushed existsb negb andb].
    rewrite !app_nil_r, seq_S.
    repeat split; auto.
    + apply forallb_forall. reflexivity.
    + intros v Hin. apply Nat.lt_lt_succ_r. now apply Hcl.
    + intros v Hin. apply Nat.lt_lt_succ_r. now apply Hse.
    + injection H as <-. apply Nat.lt_succ_diag_r.
    + injection H as <-. intros Hin. apply Hcl in Hin.
      now apply Nat.lt_irrefl in Hin.
Qed.

Lemma run_Disciplined (cs : list Call) (s : State) :
  Disciplined s -> Disciplined (run cs s).
Proof.
  revert s. induction cs as [|c cs IH]; intros s H; [exact H|].
  cbn [run]. apply IH. eapply Effect_Disciplined; [apply perform_Effect|].
  exact H.
Qed.

(** X6.  Through any run of calls made on the constructed subsystem, host
    calls and socket callbacks in any order: no frame is ever sent on a
    socket after that socket was closed, no socket is closed twice, and
    every socket that is closed or sent on is one the subsystem asked
    for. *)
Theorem sockets_stay_in_order (cs : list Call) :
  let t := Trace (run cs UStaticWavesMusicSubsystem) in
  hushed t = true /\
  NoDup (closed t) /\
  NoDup (created t) /\
  (forall w, In w (closed t) -> In w (created t)) /\
  (forall w, In w (sent_on t) -> In w (created t)).
Proof.
  cbv zeta.
  destruct (run_Disciplined cs UStaticWavesMusicSubsystem)
    as (Hh & Hnd & Hcr & Hcl & Hse & _).
  { repeat split; try constructor; try (intros w []). discriminate.
    discriminate. }
  rewrite Hcr. repeat split; auto.
  - apply seq_NoDup.
  - intros w Hin. apply in_seq. split; [apply Nat.le_0_l|]. now apply Hcl.
  - intros w Hin. apply in_seq. split; [apply Nat.le_0_l|]. now apply Hse.
Qed.

Lemma Effect_UrlKept (s s' : State) : Effect s s' -> UrlKept s -> UrlKept s'.
Proof.
  unfold UrlKept.
  intros [u Ht _ Ucr _ _ _ Hu|w _ Ht _ _ Hu|url Ht _ _ Hu] H;
    rewrite Ht, last_url_app, Hu.
  - now rewrite (no_create_last_url u Ucr).
  - exact H.
  - reflexivity.
Qed.

(** X7.  [ServerURL] always names the endpoint of the socket asked for
    last: a [Connect] that goes through stores its URL and asks for a
    socket to it, a [Connect] turned away while connected stores nothing,
    and no other call touches the member. *)
Theorem ServerURL_is_last_endpoint (cs : list Call) (s : State) :
  UrlKept s -> UrlKept (run cs s).
Proof.
  revert s. induction cs as [|c cs IH]; intros s H; [exact H|].
  cbn [run]. apply IH. eapply Effect_UrlKept; [apply perform_Effect|exact H].
Qed.

(** X7 at a concrete run: a second [Connect], to another endpoint, is
    turned away while the first connection is open. *)
Lemma ServerURL_is_last_endpoint_witness :
  let cs := [DoConnect localhost; GotConnected;
             DoConnect "ws://example.org:9000"; DoSetCombat] in
  UrlKept UStaticWavesMusicSubsystem /\
  UrlKept (run cs UStaticWavesMusicSubsystem) /\
  last_url (Trace (run cs UStaticWavesMusicSubsystem)) = Some localhost /\
  ServerURL (run cs UStaticWavesMusicSubsystem) = localhost.
Proof.
  cbv zeta. split; [exact I|]. split.
  - apply ServerURL_is_last_endpoint. exact I.
  - split; vm_compute; reflexivity.
Defined.

(** ** The peer is kept up to date *)

Lemma InSync_offline (s : State) : Connected s = false -> InSync s.
Proof. unfold InSync. intros ->. discriminate. Qed.

Lemma InSync_log (s : State) (e : Event) :
  frames [e] = [] -> InSync s -> InSync (emit e s).
Proof.
  intros He H Hc. destruct (H Hc) as [before Hb]. exists before.
  unfold emit. cbn [Trace CurrentContext].
  rewrite frames_app, He, app_nil_r. exact Hb.
Qed.

Lemma perform_InSync (c : Call) (s : State) :
  InSync s -> InSync (perform c s).
Proof.
  intros H. destruct (musical c) eqn:Hm.
  - destruct (musical_effect c s Hm) as (_ & _ & _ & _ & Ht).
    pose proof (Connected_musical c s Hm) as Hc.
    unfold InSync. rewrite Hc. intros Hon.
    destruct Ht as [[Ht Hcur]|Ht]; rewrite Ht.
    + rewrite Hcur. now apply H.
    + exists (frames (Trace s)).
      now rewrite frames_app, frames_push_events, Hc, Hon.
  - destruct c; try discriminate Hm; cbn [perform];
      try (apply InSync_offline; reflexivity).
    + now apply InSync_log.
    + apply InSync_offline. unfold Deinitialize, Connected, Disconnect.
      destruct (bIsConnected s) eqn:Hb; cbn [negb]; [reflexivity|].
      now rewrite Hb.
    + unfold Connect. destruct (bIsConnected s) eqn:Hb.
      * now apply InSync_log.
      * apply InSync_offline. unfold Connected. cbn. now rewrite Hb.
    + apply InSync_offline. unfold Connected, Disconnect.
      destruct (bIsConnected s) eqn:Hb; cbn [negb]; [reflexivity|].
      now rewrite Hb.
    + destruct (WebSocket s) as [w|] eqn:Hw.
      * rewrite (OnConnected_emits s w Hw). intros _. cbn [Trace CurrentContext].
        exists (frames (Trace s)). now rewrite frames_app.
      * apply InSync_offline. unfold OnConnected.
        rewrite SendControlUpdate_emits. unfold Connected. cbn.
        now rewrite Hw.
    + now apply InSync_log.
    + now apply InSync_log.
Qed.

(** X8.  Whenever the subsystem is connected, the frame it sent last is
    the serialization of its current context, and this is kept by every
    run of calls: each call that changes the current context while
    connected ends in a push, and each call that makes the subsystem
    connected pushes too.  The peer therefore never holds a context older
    than the subsystem's. *)
Theorem peer_stays_in_sync (cs : list Call) (s : State) :
  InSync s -> InSync (run cs s).
Proof.
  revert s. induction cs as [|c cs IH]; intros s H; [exact H|].
  cbn [run]. apply IH. now apply perform_InSync.
Qed.

(** X8 at a concrete run: a connection lost in the middle of the combat
    transition and regained after it has moved on. *)
Lemma peer_stays_in_sync_witness :
  let cs := [DoConnect localhost; GotConnected; DoSetCombat;
             DoTick (F32.lit 25 100); GotClosed 1006 "gone" false;
             DoTick (F32.lit 25 100); DoConnect localhost; GotConnected] in
  let s := run cs UStaticWavesMusicSubsystem in
  InSync UStaticWavesMusicSubsystem /\
  InSync s /\
  Connected s = true /\
  ToJson (CurrentContext s) = JsonFormat "0.75" "0.69" "0.56" "0.62".
Proof.
  cbv zeta.
  assert (I0 : InSync UStaticWavesMusicSubsystem)
    by (apply InSync_offline; reflexivity).
  split; [exact I0|]. split.
  - apply peer_stays_in_sync. exact I0.
  - split; vm_compute; reflexivity.
Defined.

(** ** Losing and regaining the connection *)

Lemma Connect_goes_through (l : State) (url : string) :
  bIsConnected l = false ->
  Connect url l =
  mkState (Some (Sockets l)) (CurrentContext l) (TargetContext l)
    (TransitionAlpha l) (TransitionDuration l) false url (S (Sockets l))
    (Trace l ++
     [CreateWebSocket (Sockets l) url; SocketConnect (Sockets l);
      UE_LOG Log ("[StaticWaves] Connecting to " ++ url ++ "...")]).
Proof.
  destruct l as [w c t a d b u n tr]. cbn [bIsConnected]. intros ->.
  unfold Connect, emit, set_WebSocket, set_Sockets, set_ServerURL. cbn.
  now rewrite <- !app_assoc.
Qed.

Lemma reconnect_from_offline (l : State) (url : string) :
  bIsConnected l = false ->
  let s' := OnConnected (Connect url l) in
  Connected s' = true /\
  WebSocket s' = Some (Sockets l) /\
  ServerURL s' = url /\
  Music s' = Music l /\
  created (Trace s') = created (Trace l) ++ [Sockets l] /\
  closed (Trace s') = closed (Trace l) /\
  frames (Trace s') = frames (Trace l) ++ [ToJson (CurrentContext l)] /\
  sent_on (Trace s') = sent_on (Trace l) ++ [Sockets l].
Proof.
  intros Hb. cbv zeta. rewrite (Connect_goes_through l url Hb).
  match goal with
  | |- context [OnConnected ?c] =>
      rewrite (OnConnected_emits c (Sockets l) eq_refl)
  end.
  unfold Music, Connected.
  cbn [Trace WebSocket bIsConnected ServerURL CurrentContext TargetContext
       TransitionAlpha TransitionDuration Sockets IsValid andb].
  rewrite !created_app, !closed_app, !frames_app, !sent_on_app.
  cbn [created closed frames sent_on app].
  rewrite !app_nil_r. repeat split.
Qed.

(** X9.  After the connection is lost, by [OnClosed] or by
    [OnConnectionError], a [Connect] followed by the socket's
    [OnConnected] brings the subsystem back: a fresh socket is asked for
    and held (the lost one is neither closed nor sent on again by the
    subsystem), contexts, progress and duration are what they were, and
    exactly one frame goes out on the new socket, the current context. *)
Theorem reconnect_resyncs (s : State) (url : string) (StatusCode : Z)
    (Reason Err : string) (bWasClean : bool) (lost : State) :
  lost = OnClosed StatusCode Reason bWasClean s \/
  lost = OnConnectionError Err s ->
  let s' := OnConnected (Connect url lost) in
  Connected lost = false /\
  Connected s' = true /\
  WebSocket s' = Some (Sockets s) /\
  Music s' = Music s /\
  created (Trace s') = created (Trace s) ++ [Sockets s] /\
  closed (Trace s') = closed (Trace s) /\
  frames (Trace s') = frames (Trace s) ++ [ToJson (CurrentContext s)] /\
  sent_on (Trace s') = sent_on (Trace s) ++ [Sockets s].
Proof.
  intros Hl. cbv zeta.
  assert (Hb : bIsConnected lost = false) by (destruct Hl; subst; reflexivity).
  destruct (reconnect_from_offline lost url Hb)
    as (Hc & Hw & _ & Hm & Hcr & Hcl & Hf & Hs).
  rewrite Hc, Hw, Hm, Hcr, Hcl, Hf, Hs.
  unfold Connected. rewrite Hb.
  destruct Hl; subst lost; unfold OnClosed, OnConnectionError, emit, Music;
    cbn [Trace WebSocket bIsConnected CurrentContext TargetContext
         TransitionAlpha TransitionDuration Sockets set_bIsConnected];
    rewrite !created_app, !closed_app, !frames_app, !sent_on_app;
    cbn [created closed frames sent_on app]; rewrite !app_nil_r;
    repeat split.
Qed.

(** X9 at a concrete state: the connection closes half a second into the
    combat transition. *)
Lemma reconnect_resyncs_witness :
  let s := Tick (F32.lit 5 10) (SetCombat Online) in
  let s' := OnConnected (Connect localhost (OnClosed 1006 "gone" false s)) in
  WebSocket s' = Some 1%nat /\
  sent_on (Trace s') = [0%nat; 0%nat; 1%nat] /\
  frames (Trace s') =
    [JsonFormat "0.50" "0.50" "0.50" "0.50";
     JsonFormat "0.70" "0.65" "0.55" "0.60";
     JsonFormat "0.70" "0.65" "0.55" "0.60"].
Proof.
  cbv zeta.
  destruct (reconnect_resyncs (Tick (F32.lit 5 10) (SetCombat Online))
              localhost 1006 "gone" "" false
              (OnClosed 1006 "gone" false
                 (Tick (F32.lit 5 10) (SetCombat Online)))
              (or_introl eq_refl))
    as (_ & _ & Hw & _ & _ & _ & Hf & Hs).
  split; [rewrite Hw; vm_compute; reflexivity|].
  split; [rewrite Hs; vm_compute; reflexivity|].
  rewrite Hf. vm_compute. reflexivity.
Defined.

(** ** Transitions that follow one another *)

(** X10.  Of two calls that start a transition ([TransitionToContext], a
    preset or [PushMusicEvent], in any mix) made one after the other with
    no tick in between, the second alone counts: the state is the one the
    second call alone would have left.  Nothing of the first target,
    duration or event is queued or blended in, and an unknown event
    derives its target from the current context, never from the pending
    target. *)
Theorem newest_transition_wins (c1 c2 : Call) (s : State) :
  starts c1 = true -> starts c2 = true ->
  perform c2 (perform c1 s) = perform c2 s.
Proof.
  destruct c1; try discriminate; destruct c2; try discriminate;
    intros _ _; cbn [perform]; unfold PushMusicEvent;
    repeat match goal with
           | |- context [FName_eq ?a ?b] => destruct (FName_eq a b)
           end;
    reflexivity.
Qed.

(** X10 at concrete calls: an unknown event pushed right after the boss
    preset. *)
Lemma newest_transition_wins_witness :
  let s := Tick (F32.lit 5 10) (SetCombat UStaticWavesMusicSubsystem) in
  PushMusicEvent "alarm"%string (F32.lit 3 10) (SetBoss s) =
    PushMusicEvent "alarm"%string (F32.lit 3 10) s /\
  Energy (TargetContext (PushMusicEvent "alarm"%string (F32.lit 3 10) (SetBoss s)))
    = F32.lit 7 10.
Proof.
  cbv zeta. split.
  - exact (newest_transition_wins DoSetBoss
             (DoPushMusicEvent "alarm"%string (F32.lit 3 10))
             (Tick (F32.lit 5 10) (SetCombat UStaticWavesMusicSubsystem))
             eq_refl eq_refl).
  - vm_compute. reflexivity.
Defined.

(** ** A context that has reached its target *)

Lemma sub_self (x : float) :
  ordinary x = true -> F32.sub x x = S754_zero false.
Proof.
  destruct x as [sx|sx| |sx mx ex]; try discriminate.
  - destruct sx; [discriminate|reflexivity].
  - intros _. unfold F32.sub, SFsub. rewrite Z.sub_diag. reflexivity.
Qed.

(** Interpolating from a number toward itself gives that number, at
    every blend factor in [0,1]. *)
Lemma Lerp_self (x p : float) :
  ordinary x = true -> F32.in_unit p = true -> FMath.Lerp x x p = x.
Proof.
  intros Hx Hp. unfold FMath.Lerp. rewrite (sub_self x Hx).
  destruct p as [sp|sp| |sp mp ep]; try discriminate Hp;
    try (destruct sp; discriminate Hp).
  - destruct x as [sx|sx| |sx mx ex]; try discriminate Hx;
      destruct sx, sp; try discriminate Hx; reflexivity.
  - destruct sp; [discriminate Hp|].
    destruct x as [sx|sx| |sx mx ex]; try discriminate Hx;
      destruct sx; try discriminate Hx; reflexivity.
Qed.

Lemma LerpContext_self (c : FMusicContext) (p : float) :
  Ordinary c = true -> F32.in_unit p = true -> LerpContext c c p = c.
Proof.
  unfold Ordinary. intros H Hp.
  apply andb_true_iff in H as [H Hx].
  apply andb_true_iff in H as [H Hd].
  apply andb_true_iff in H as [He Ht].
  destruct c as [e t d x]. unfold LerpContext. cbn in *.
  now rewrite !Lerp_self.
Qed.

Lemma Tick_at_target (dt : float) (s : State) :
  Ordinary (CurrentContext s) = true ->
  TargetContext s = CurrentContext s ->
  CurrentContext (Tick dt s) = CurrentContext s /\
  TargetContext (Tick dt s) = TargetContext s.
Proof.
  intros Ho Ht. destruct (F32.ltb (TransitionAlpha s) F32.one) eqn:Hr.
  - tick_runs Hr. cbn [CurrentContext TargetContext]. split; [|reflexivity].
    rewrite Ht. apply LerpContext_self; [exact Ho|apply advanced_in_unit].
  - rewrite (Tick_idle s dt Hr). split; reflexivity.
Qed.

Lemma Ticks_at_target (deltas : list float) (s : State) :
  Ordinary (CurrentContext s) = true ->
  TargetContext s = CurrentContext s ->
  CurrentContext (Ticks deltas s) = CurrentContext s.
Proof.
  revert s. induction deltas as [|d deltas IH]; intros s Ho Ht; [reflexivity|].
  cbn [Ticks]. destruct (Tick_at_target d s Ho Ht) as [Hc Ht'].
  rewrite IH; [exact Hc|now rewrite Hc|now rewrite Ht', Hc].
Qed.

(** X11.  A current context whose fields are finite numbers (negative
    zero apart) and that equals the target is held exactly, bit for bit,
    by every run of ticks, whatever the deltas and wherever the progress
    stands: the interpolation has no drift at the target.  In particular
    a transition toward the context the subsystem is already in never
    moves it. *)
Theorem ticks_hold_at_target (s : State) (deltas : list float) :
  Ordinary (CurrentContext s) = true ->
  (TargetContext s = CurrentContext s ->
   CurrentContext (Ticks deltas s) = CurrentContext s) /\
  (forall d : float,
     CurrentContext (Ticks deltas (TransitionToContext (CurrentContext s) d s))
     = CurrentContext s).
Proof.
  intros Ho. split.
  - intros Ht. now apply Ticks_at_target.
  - intros d. now rewrite Ticks_at_target.
Qed.

(** X11 at a concrete state: half a second into the combat transition the
    subsystem is sent toward where it stands, and ticked on. *)
Lemma ticks_hold_at_target_witness :
  let s := Tick (F32.lit 5 10) (SetCombat UStaticWavesMusicSubsystem) in
  let deltas := [F32.lit 1 10; F32.lit 3 10; F32.lit 2 1] in
  Ordinary (CurrentContext s) = true /\
  CurrentContext s <> TargetContext s /\
  CurrentContext
    (Ticks deltas (TransitionToContext (CurrentContext s) (F32.lit 1 1) s))
  = CurrentContext s.
Proof.
  cbv zeta. split; [vm_compute; reflexivity|].
  split; [vm_compute; discriminate|].
  apply (proj2 (ticks_hold_at_target
                  (Tick (F32.lit 5 10) (SetCombat UStaticWavesMusicSubsystem))
                  [F32.lit 1 10; F32.lit 3 10; F32.lit 2 1]
                  ltac:(vm_compute; reflexivity))).
Defined.
